(** * Training control loop and decode loop of [neuralnetworks/las_net.py]

    A shallow embedding of [Nnet.train] and [Nnet.decode].  The batch
    dispenser, the trainer, the decoder and the feature reader are
    collaborators whose code lives outside this file: they are taken as
    section variables.  Every call to a collaborator, and every assignment to
    the loop counter [step], is recorded in a trace in program order, so that
    statements about "what the loop does, in which order" can be read off the
    trace. *)

From Stdlib Require Import ZArith List String Lia Bool.
From Stdlib Require Import DecimalPos DecimalZ DecimalString.
From stdpp Require Import base option list gmap strings.

Local Open Scope Z_scope.

(** ** Python helpers *)

(** Exceptions the modelled code can raise. *)
Inductive Exn :=
| ZeroDivisionError
| UnboundLocalError
| RestoreError (path : string).

(** [a % b] on Python integers: floor remainder with the sign of the divisor,
    raising on a zero divisor. *)
Definition py_mod (a b : Z) : option Z :=
  if b =? 0 then None else Some (a mod b).

(** Number of iterations of [for _ in range(n)]: none when [n <= 0]. *)
Definition py_range (n : Z) : nat := Z.to_nat n.

(** [str(n)] on a Python integer. *)
Definition py_str (n : Z) : string := NilZero.string_of_int (Z.to_int n).

(** ** Configuration

    [net_conf] is a dictionary of strings; the integer options are read
    through [int(...)] at every use, which is a pure conversion, so the
    record holds the converted values.  [valid_adapt] and [visualise] are
    compared with the string ['True'] and stay strings. *)
Record NetConf := {
  savedir : string;
  valid_batches : Z;
  num_epochs : Z;
  starting_step : Z;
  valid_frequency : Z;
  valid_adapt : string;
  valid_retries : Z;
  check_freq : Z;
  visualise : string
}.

Definition training_path (cfg : NetConf) (n : Z) : string :=
  savedir cfg +:+ "/training/step" +:+ py_str n.

Definition validated_path (cfg : NetConf) : string :=
  savedir cfg +:+ "/validation/validated".

Definition final_path (cfg : NetConf) : string :=
  savedir cfg +:+ "/final".

Definition plot_path (cfg : NetConf) : string :=
  savedir cfg +:+ "/" +:+ "plot.pkl".

Definition logdir_path (cfg : NetConf) : string :=
  savedir cfg +:+ "/logdir".

(** ** Trace of collaborator calls *)
Inductive Event :=
| GetBatch
| Split
| SkipBatch
| ReturnBatch
| StartVisualization (path : string)
| Initialize
| Update
| Evaluate
| HalveLearningRate
| SaveTrainer (path : string)
| RestoreTrainer (path : string)
| SaveModel (path : string)
| PickleDump (path : string)
| SetStep (n : Z).

Global Instance Event_eq_dec : EqDecision Event.
Proof. solve_decision. Defined.

(** Number of optimisation updates recorded in a trace. *)
Fixpoint updates (tr : list Event) : nat :=
  match tr with
  | [] => O
  | Update :: tr' => S (updates tr')
  | _ :: tr' => updates tr'
  end.

(** The successive values assigned to [step]. *)
Fixpoint step_values (tr : list Event) : list Z :=
  match tr with
  | [] => []
  | SetStep n :: tr' => n :: step_values tr'
  | _ :: tr' => step_values tr'
  end.

(** Number of events of a trace that pass a test. *)
Definition count (p : Event -> bool) (tr : list Event) : nat :=
  length (List.filter p tr).

Definition is_get_batch (e : Event) : bool :=
  match e with GetBatch => true | _ => false end.

Definition is_return_batch (e : Event) : bool :=
  match e with ReturnBatch => true | _ => false end.

Definition is_evaluate (e : Event) : bool :=
  match e with Evaluate => true | _ => false end.


(** ** Collaborators

    Feature matrices [Mat], label sequences [Lab], losses, validation errors
    and learning rates are opaque values produced by the collaborators. *)

(** The batch dispenser, by the state [Disp] of its cursor. *)
Class Dispenser (Mat Lab Disp : Type) := {
  get_batch : Disp -> (list Mat * list Lab) * Disp;
  return_batch : Disp -> Disp;
  skip_batch : Disp -> Disp;
  split : Disp -> Disp;
  num_batches : Disp -> Z
}.

(** The trainer, by the state [Sess] of its session (parameters and learning
    rate).  [initialize] is the session of a trainer built for a given
    number of steps. *)
Class Trainer (Mat Lab Loss Err Lr Sess : Type) := {
  initialize : Z -> Sess;
  update : Sess -> list Mat -> list Lab -> (Loss * Lr) * Sess;
  evaluate : Sess -> list Mat -> list Lab -> Err * Loss;
  halve_learning_rate : Sess -> Sess
}.

(** Comparison of validation errors: [a > b] and [a <= b]. *)
Class ErrOrder (Err : Type) := {
  err_gt : Err -> Err -> bool;
  err_le : Err -> Err -> bool
}.

(** ** State of a training run *)

(** The three validation variables, bound together by the initial
    validation and unbound when there is no validation set. *)
Record ValVars (Err : Type) := {
  validation_error : Err;
  validation_step : Z;
  num_retries : Z
}.
Arguments Build_ValVars {Err}.
Arguments validation_error {Err}.
Arguments validation_step {Err}.
Arguments num_retries {Err}.

(** Local variables of [train] that change in the loop, the collaborators'
    states, the files written, and the trace. *)
Record TrainState (Loss Err Disp Sess : Type) := {
  step : Z;
  vvars : option (ValVars Err);
  loss_lst : list (Z * Loss);
  val_loss_lst : list (Z * Loss);
  val_error_list : list (Z * Err);
  disp : Disp;
  sess : Sess;
  store : gmap string Sess;
  plot : option (list (Z * Loss) * list (Z * Loss) * list (Z * Err));
  trace : list Event
}.
Arguments Build_TrainState {Loss Err Disp Sess}.
Arguments step {Loss Err Disp Sess}.
Arguments vvars {Loss Err Disp Sess}.
Arguments loss_lst {Loss Err Disp Sess}.
Arguments val_loss_lst {Loss Err Disp Sess}.
Arguments val_error_list {Loss Err Disp Sess}.
Arguments disp {Loss Err Disp Sess}.
Arguments sess {Loss Err Disp Sess}.
Arguments store {Loss Err Disp Sess}.
Arguments plot {Loss Err Disp Sess}.
Arguments trace {Loss Err Disp Sess}.

(** Control flow out of a block of the loop body. *)
Inductive Flow (Loss Err Disp Sess : Type) :=
| Next (st : TrainState Loss Err Disp Sess)
| Continue (st : TrainState Loss Err Disp Sess)
| Break (st : TrainState Loss Err Disp Sess)
| Raise (e : Exn) (st : TrainState Loss Err Disp Sess).
Arguments Next {Loss Err Disp Sess}.
Arguments Continue {Loss Err Disp Sess}.
Arguments Break {Loss Err Disp Sess}.
Arguments Raise {Loss Err Disp Sess}.

(** How a run of the loop, or of [train], ends. *)
Inductive Result (Loss Err Disp Sess : Type) :=
| Done (st : TrainState Loss Err Disp Sess)
| Failed (e : Exn) (st : TrainState Loss Err Disp Sess)
| OutOfFuel (st : TrainState Loss Err Disp Sess).
Arguments Done {Loss Err Disp Sess}.
Arguments Failed {Loss Err Disp Sess}.
Arguments OutOfFuel {Loss Err Disp Sess}.

Definition result_state {Loss Err Disp Sess : Type}
    (r : Result Loss Err Disp Sess) : TrainState Loss Err Disp Sess :=
  match r with Done st | Failed _ st | OutOfFuel st => st end.

Section Train.

Context {Mat Lab Loss Err Lr Disp Sess : Type}.
Context `{!Dispenser Mat Lab Disp}.
Context `{!Trainer Mat Lab Loss Err Lr Sess}.
Context `{!ErrOrder Err}.

Local Abbreviation TrainState := (TrainState Loss Err Disp Sess).
Local Abbreviation Flow := (Flow Loss Err Disp Sess).
Local Abbreviation Result := (Result Loss Err Disp Sess).
Local Abbreviation ValVars := (ValVars Err).
Local Abbreviation ValSet := (option (list Mat * list Lab)).

Definition set_step (n : Z) (st : TrainState) : TrainState :=
  {| step := n; vvars := vvars st; loss_lst := loss_lst st;
     val_loss_lst := val_loss_lst st; val_error_list := val_error_list st;
     disp := disp st; sess := sess st; store := store st; plot := plot st;
     trace := trace st ++ [SetStep n] |}.

Definition set_vvars (v : ValVars) (st : TrainState) : TrainState :=
  {| step := step st; vvars := Some v; loss_lst := loss_lst st;
     val_loss_lst := val_loss_lst st; val_error_list := val_error_list st;
     disp := disp st; sess := sess st; store := store st; plot := plot st;
     trace := trace st |}.

Definition push_loss (l : Loss) (st : TrainState) : TrainState :=
  {| step := step st; vvars := vvars st;
     loss_lst := loss_lst st ++ [(step st, l)];
     val_loss_lst := val_loss_lst st; val_error_list := val_error_list st;
     disp := disp st; sess := sess st; store := store st; plot := plot st;
     trace := trace st |}.

Definition push_validation (e : Err) (l : Loss) (st : TrainState) : TrainState :=
  {| step := step st; vvars := vvars st; loss_lst := loss_lst st;
     val_loss_lst := val_loss_lst st ++ [(step st, l)];
     val_error_list := val_error_list st ++ [(step st, e)];
     disp := disp st; sess := sess st; store := store st; plot := plot st;
     trace := trace st |}.

Definition with_disp (ev : Event) (d : Disp) (st : TrainState) : TrainState :=
  {| step := step st; vvars := vvars st; loss_lst := loss_lst st;
     val_loss_lst := val_loss_lst st; val_error_list := val_error_list st;
     disp := d; sess := sess st; store := store st; plot := plot st;
     trace := trace st ++ [ev] |}.

Definition with_sess (ev : Event) (s : Sess) (st : TrainState) : TrainState :=
  {| step := step st; vvars := vvars st; loss_lst := loss_lst st;
     val_loss_lst := val_loss_lst st; val_error_list := val_error_list st;
     disp := disp st; sess := s; store := store st; plot := plot st;
     trace := trace st ++ [ev] |}.

Definition emit (ev : Event) (st : TrainState) : TrainState :=
  with_sess ev (sess st) st.

(** [trainer.save_trainer(path)]: the session is written under [path]. *)
Definition save_trainer (path : string) (st : TrainState) : TrainState :=
  {| step := step st; vvars := vvars st; loss_lst := loss_lst st;
     val_loss_lst := val_loss_lst st; val_error_list := val_error_list st;
     disp := disp st; sess := sess st;
     store := <[path := sess st]> (store st); plot := plot st;
     trace := trace st ++ [SaveTrainer path] |}.

(** [trainer.save_model(path)]. *)
Definition save_model (path : string) (st : TrainState) : TrainState :=
  {| step := step st; vvars := vvars st; loss_lst := loss_lst st;
     val_loss_lst := val_loss_lst st; val_error_list := val_error_list st;
     disp := disp st; sess := sess st;
     store := <[path := sess st]> (store st); plot := plot st;
     trace := trace st ++ [SaveModel path] |}.

(** [pickle.dump([loss_lst, val_loss_lst, val_error_list], open(path))]. *)
Definition pickle_dump (path : string) (st : TrainState) : TrainState :=
  {| step := step st; vvars := vvars st; loss_lst := loss_lst st;
     val_loss_lst := val_loss_lst st; val_error_list := val_error_list st;
     disp := disp st; sess := sess st; store := store st;
     plot := Some (loss_lst st, val_loss_lst st, val_error_list st);
     trace := trace st ++ [PickleDump path] |}.

(** [trainer.restore_trainer(path)]: the session saved under [path] replaces
    the current one; [None] when nothing was saved there, which is fatal. *)
Definition restore_trainer (path : string) (st : TrainState)
    : option TrainState :=
  match store st !! path with
  | Some s => Some (with_sess (RestoreTrainer path) s st)
  | None => None
  end.

(** [for _ in range(n): dispenser.return_batch()] *)
Definition return_batches (n : nat) (st : TrainState) : TrainState :=
  {| step := step st; vvars := vvars st; loss_lst := loss_lst st;
     val_loss_lst := val_loss_lst st; val_error_list := val_error_list st;
     disp := Nat.iter n return_batch (disp st); sess := sess st;
     store := store st; plot := plot st;
     trace := trace st ++ repeat ReturnBatch n |}.

(** Lines 174-186: fetch a batch, update the model, log the loss, increment
    [step]. *)
Definition fetch_update (st : TrainState) : TrainState :=
  let '((batch_data, batch_labels), d) := get_batch (disp st) in
  let st := with_disp GetBatch d st in
  let '((loss, _), s) := update (sess st) batch_data batch_labels in
  let st := with_sess Update s st in
  let st := push_loss loss st in
  set_step (step st + 1) st.

(** Lines 201-238: the body of [if valid_adapt == 'True']. *)
Definition adapt (cfg : NetConf) (current_error : Err) (st : TrainState) : Flow :=
  match vvars st with
  | None => Raise UnboundLocalError st
  | Some vv =>
    if err_gt current_error (validation_error vv) then
      let st := return_batches (py_range (step st - validation_step vv)) st in
      match restore_trainer (validated_path cfg) st with
      | None => Raise (RestoreError (validated_path cfg)) st
      | Some st =>
        let st := with_sess HalveLearningRate (halve_learning_rate (sess st)) st in
        let st := save_trainer (validated_path cfg) st in
        let st := set_step (validation_step vv) st in
        if num_retries vv =? valid_retries cfg then Break st
        else
          Continue (set_vvars {| validation_error := validation_error vv;
                                 validation_step := validation_step vv;
                                 num_retries := num_retries vv + 1 |} st)
      end
    else
      let st := set_vvars {| validation_error := current_error;
                             validation_step := step st;
                             num_retries := 0 |} st in
      Next (save_trainer (validated_path cfg) st)
  end.

(** Lines 189-238: the validation trigger.  The remainder is computed before
    [val_data is not None] is looked at. *)
Definition validation (cfg : NetConf) (val : ValSet)
    (st : TrainState) : Flow :=
  match py_mod (step st) (valid_frequency cfg) with
  | None => Raise ZeroDivisionError st
  | Some r =>
    match (if r =? 0 then val else None) with
    | Some (val_data, val_labels) =>
      let '(current_error, val_loss) := evaluate (sess st) val_data val_labels in
      let st := emit Evaluate st in
      let st := push_validation current_error val_loss st in
      if String.eqb (valid_adapt cfg) "True" then adapt cfg current_error st
      else Next st
    | None => Next st
    end
  end.

(** Lines 240-243: the checkpoint trigger. *)
Definition checkpoint (cfg : NetConf) (st : TrainState) : Flow :=
  match py_mod (step st) (check_freq cfg) with
  | None => Raise ZeroDivisionError st
  | Some r =>
    if r =? 0 then Next (save_trainer (training_path cfg (step st)) st)
    else Next st
  end.

(** One iteration of [while step < num_steps]. *)
Definition body (cfg : NetConf) (val : ValSet)
    (st : TrainState) : Flow :=
  match validation cfg val (fetch_update st) with
  | Next st => checkpoint cfg st
  | other => other
  end.

(** Lines 172-243, with a bound on the number of iterations. *)
Fixpoint loop (cfg : NetConf) (val : ValSet)
    (num_steps : Z) (fuel : nat) (st : TrainState) : Result :=
  if step st <? num_steps then
    match fuel with
    | O => OutOfFuel st
    | S fuel' =>
      match body cfg val st with
      | Next st' | Continue st' => loop cfg val num_steps fuel' st'
      | Break st' => Done st'
      | Raise e st' => Failed e st'
      end
    end
  else Done st.

(** [[dispenser.get_batch() for _ in range(n)]] *)
Fixpoint draw_batches (n : nat) (d : Disp)
    : list (list Mat * list Lab) * Disp :=
  match n with
  | O => ([], d)
  | S n' =>
    let '(b, d1) := get_batch d in
    let '(bs, d2) := draw_batches n' d1 in
    (b :: bs, d2)
  end.

(** Lines 92-101: the validation set, the dispenser after it was drawn, and
    the number of batches drawn. *)
Definition validation_set (cfg : NetConf) (d : Disp)
    : ValSet * Disp * nat :=
  if 0 <? valid_batches cfg then
    let n := py_range (valid_batches cfg) in
    let '(bs, d') := draw_batches n d in
    (Some (concat (map fst bs), concat (map snd bs)), d', n)
  else (None, d, O).

(** [val_data] and [val_labels] of a call of [train]. *)
Definition val_set (cfg : NetConf) (d : Disp) : ValSet :=
  fst (fst (validation_set cfg d)).

(** Line 106: [num_steps]. *)
Definition total_steps (cfg : NetConf) (d : Disp) : Z :=
  num_batches (split (snd (fst (validation_set cfg d)))) * num_epochs cfg.

(** Lines 91-150: the state after [trainer.initialize()]. *)
Definition initial_state (cfg : NetConf) (d : Disp) (files : gmap string Sess)
    : TrainState :=
  let '(_, d1, drawn) := validation_set cfg d in
  let d2 := split d1 in
  let num_steps := num_batches d2 * num_epochs cfg in
  let step0 := starting_step cfg in
  let skipped := py_range step0 in
  {| step := step0; vvars := None; loss_lst := []; val_loss_lst := [];
     val_error_list := [];
     disp := Nat.iter skipped skip_batch d2;
     sess := initialize num_steps;
     store := files; plot := None;
     trace := repeat GetBatch drawn ++ [Split; SetStep step0]
              ++ repeat SkipBatch skipped
              ++ (if String.eqb (visualise cfg) "True"
                  then [StartVisualization (logdir_path cfg)] else [])
              ++ [Initialize] |}.

(** Lines 152-155: resume from the checkpoint of the starting step. *)
Definition resume (cfg : NetConf) (st : TrainState) : Exn * TrainState + TrainState :=
  if 0 <? step st then
    match restore_trainer (training_path cfg (step st)) st with
    | Some st' => inr st'
    | None => inl (RestoreError (training_path cfg (step st)), st)
    end
  else inr st.

(** Lines 157-169: the initial validation. *)
Definition initial_validation (cfg : NetConf)
    (val : ValSet) (st : TrainState) : TrainState :=
  match val with
  | Some (val_data, val_labels) =>
    let '(verr, val_loss) := evaluate (sess st) val_data val_labels in
    let st := emit Evaluate st in
    let st := set_vvars {| validation_error := verr;
                           validation_step := step st;
                           num_retries := 0 |}
                (save_trainer (validated_path cfg) st) in
    push_validation verr val_loss st
  | None => st
  end.

(** Lines 91-169: everything before the loop; the state at the first test of
    the loop condition, or the failure. *)
Definition setup (cfg : NetConf) (d : Disp) (files : gmap string Sess)
    : Exn * TrainState + TrainState :=
  match resume cfg (initial_state cfg d files) with
  | inr st => inr (initial_validation cfg (val_set cfg d) st)
  | inl err => inl err
  end.

(** Lines 245-249: the final model and the logs are written. *)
Definition teardown (cfg : NetConf) (st : TrainState) : TrainState :=
  pickle_dump (plot_path cfg) (save_model (final_path cfg) st).

(** [Nnet.train]. *)
Definition train (cfg : NetConf) (fuel : nat) (d : Disp)
    (files : gmap string Sess) : Result :=
  match setup cfg d files with
  | inr st =>
    match loop cfg (val_set cfg d) (total_steps cfg d) fuel st with
    | Done st' => Done (teardown cfg st')
    | other => other
    end
  | inl (e, st) => Failed e st
  end.

(** States at the loop condition of a run that entered the loop in [st0]. *)
Inductive reachable (cfg : NetConf) (val : ValSet)
    (num_steps : Z) (st0 : TrainState) : TrainState -> Prop :=
| reach_start : reachable cfg val num_steps st0 st0
| reach_next st st' :
    reachable cfg val num_steps st0 st ->
    step st < num_steps ->
    body cfg val st = Next st' \/ body cfg val st = Continue st' ->
    reachable cfg val num_steps st0 st'.

(** *** The states an iteration can end in

    The iteration starting in [st] first reaches [fetch_update st]; the
    definitions below name the states reached from there on each path. *)

Definition flow_state (fl : Flow) : TrainState :=
  match fl with Next st | Continue st | Break st | Raise _ st => st end.

(** The validation trigger fires in the iteration starting in [st]. *)
Definition validation_due (cfg : NetConf) (val : ValSet) (st : TrainState)
    (val_data : list Mat) (val_labels : list Lab) : Prop :=
  valid_frequency cfg <> 0
  /\ (step st + 1) mod valid_frequency cfg = 0
  /\ val = Some (val_data, val_labels).

(** [current_error] of the validation in the iteration starting in [st]. *)
Definition current_error (val_data : list Mat) (val_labels : list Lab)
    (st : TrainState) : Err :=
  fst (evaluate (sess (fetch_update st)) val_data val_labels).

(** Lines 192-196: evaluated and logged. *)
Definition logged (val_data : list Mat) (val_labels : list Lab)
    (st1 : TrainState) : TrainState :=
  push_validation (fst (evaluate (sess st1) val_data val_labels))
    (snd (evaluate (sess st1) val_data val_labels)) (emit Evaluate st1).

(** Lines 234-238: the result is accepted. *)
Definition accepted (cfg : NetConf) (cur : Err) (st2 : TrainState) : TrainState :=
  save_trainer (validated_path cfg)
    (set_vvars {| validation_error := cur; validation_step := step st2;
                  num_retries := 0 |} st2).

(** Lines 203-218: rewound, restored from [snap], halved, saved, reset. *)
Definition rolled_back (cfg : NetConf) (vv : ValVars) (snap : Sess)
    (st2 : TrainState) : TrainState :=
  set_step (validation_step vv)
    (save_trainer (validated_path cfg)
       (with_sess HalveLearningRate (halve_learning_rate snap)
          (with_sess (RestoreTrainer (validated_path cfg)) snap
             (return_batches (py_range (step st2 - validation_step vv)) st2)))).

(** Line 229: one more retry. *)
Definition retried (vv : ValVars) (st : TrainState) : TrainState :=
  set_vvars {| validation_error := validation_error vv;
               validation_step := validation_step vv;
               num_retries := num_retries vv + 1 |} st.

(** Lines 241-243 when [check_freq] is not zero. *)
Definition checkpointed (cfg : NetConf) (st : TrainState) : TrainState :=
  if step st mod check_freq cfg =? 0
  then save_trainer (training_path cfg (step st)) st else st.

(** The paths through [validation], by the state [st1] it starts in. *)
Inductive validation_case (cfg : NetConf) (val : ValSet) (st1 : TrainState)
    : Flow -> Prop :=
| case_zero_frequency :
    valid_frequency cfg = 0 ->
    validation_case cfg val st1 (Raise ZeroDivisionError st1)
| case_not_due :
    valid_frequency cfg <> 0 ->
    step st1 mod valid_frequency cfg <> 0 \/ val = None ->
    validation_case cfg val st1 (Next st1)
| case_no_adapt vd vl :
    valid_frequency cfg <> 0 ->
    step st1 mod valid_frequency cfg = 0 ->
    val = Some (vd, vl) ->
    valid_adapt cfg <> "True" ->
    validation_case cfg val st1 (Next (logged vd vl st1))
| case_unbound vd vl :
    valid_frequency cfg <> 0 ->
    step st1 mod valid_frequency cfg = 0 ->
    val = Some (vd, vl) ->
    valid_adapt cfg = "True" ->
    vvars st1 = None ->
    validation_case cfg val st1 (Raise UnboundLocalError (logged vd vl st1))
| case_accept vd vl vv :
    valid_frequency cfg <> 0 ->
    step st1 mod valid_frequency cfg = 0 ->
    val = Some (vd, vl) ->
    valid_adapt cfg = "True" ->
    vvars st1 = Some vv ->
    err_gt (fst (evaluate (sess st1) vd vl)) (validation_error vv) = false ->
    validation_case cfg val st1
      (Next (accepted cfg (fst (evaluate (sess st1) vd vl)) (logged vd vl st1)))
| case_no_checkpoint vd vl vv :
    valid_frequency cfg <> 0 ->
    step st1 mod valid_frequency cfg = 0 ->
    val = Some (vd, vl) ->
    valid_adapt cfg = "True" ->
    vvars st1 = Some vv ->
    err_gt (fst (evaluate (sess st1) vd vl)) (validation_error vv) = true ->
    store st1 !! validated_path cfg = None ->
    validation_case cfg val st1
      (Raise (RestoreError (validated_path cfg))
         (return_batches (py_range (step st1 - validation_step vv))
            (logged vd vl st1)))
| case_break vd vl vv snap :
    valid_frequency cfg <> 0 ->
    step st1 mod valid_frequency cfg = 0 ->
    val = Some (vd, vl) ->
    valid_adapt cfg = "True" ->
    vvars st1 = Some vv ->
    err_gt (fst (evaluate (sess st1) vd vl)) (validation_error vv) = true ->
    store st1 !! validated_path cfg = Some snap ->
    num_retries vv = valid_retries cfg ->
    validation_case cfg val st1
      (Break (rolled_back cfg vv snap (logged vd vl st1)))
| case_retry vd vl vv snap :
    valid_frequency cfg <> 0 ->
    step st1 mod valid_frequency cfg = 0 ->
    val = Some (vd, vl) ->
    valid_adapt cfg = "True" ->
    vvars st1 = Some vv ->
    err_gt (fst (evaluate (sess st1) vd vl)) (validation_error vv) = true ->
    store st1 !! validated_path cfg = Some snap ->
    num_retries vv <> valid_retries cfg ->
    validation_case cfg val st1
      (Continue (retried vv (rolled_back cfg vv snap (logged vd vl st1)))).

(** *** Invariants *)

(** [P] is kept by every path through the body, whatever way the iteration
    ends. *)
Definition body_preserves (cfg : NetConf) (val : ValSet) (num_steps : Z)
    (P : TrainState -> Prop) : Prop :=
  forall st, P st -> step st < num_steps -> P (flow_state (body cfg val st)).

(** [P] is kept by every path through the body that does not raise. *)
Definition body_keeps (cfg : NetConf) (val : ValSet) (num_steps : Z)
    (P : TrainState -> Prop) : Prop :=
  forall st, P st -> step st < num_steps ->
  match body cfg val st with
  | Raise _ _ => True
  | fl => P (flow_state fl)
  end.

(** With a validation set, the validation variables are bound and a
    [validated] checkpoint is in place. *)
Definition validation_ready (cfg : NetConf) (val : ValSet) (st : TrainState) : Prop :=
  val <> None ->
  is_Some (vvars st) /\ is_Some (store st !! validated_path cfg).

(** [starting_step <= validation_step <= step]. *)
Definition steps_ordered (cfg : NetConf) (st : TrainState) : Prop :=
  starting_step cfg <= step st
  /\ forall vv, vvars st = Some vv ->
     starting_step cfg <= validation_step vv <= step st.

(** [0 <= num_retries <= valid_retries]. *)
Definition retries_bounded (cfg : NetConf) (st : TrainState) : Prop :=
  forall vv, vvars st = Some vv -> 0 <= num_retries vv <= valid_retries cfg.

(** Every value [step] has had so far lies in [0 .. num_steps]. *)
Definition steps_in_range (num_steps : Z) (st : TrainState) : Prop :=
  Forall (fun n => 0 <= n <= num_steps) (step_values (trace st)).

(** A step-tagged checkpoint was saved for every multiple of [check_freq]
    above the starting step and up to [step]. *)
Definition checkpoints_saved (cfg : NetConf) (st : TrainState) : Prop :=
  forall n, starting_step cfg < n <= step st -> n mod check_freq cfg = 0 ->
  SaveTrainer (training_path cfg n) ∈ trace st
  /\ is_Some (store st !! training_path cfg n).

(** The dispenser is where [get_batch] takes it from [d0] in
    [step - starting_step] calls. *)
Definition cursor_follows_step (cfg : NetConf) (d0 : Disp) (st : TrainState) : Prop :=
  disp st = Nat.iter (Z.to_nat (step st - starting_step cfg))
              (fun d => snd (get_batch d)) d0.

(** Events of a run without validation, once the loop is entered. *)
Definition plain_event (cfg : NetConf) (e : Event) : Prop :=
  match e with
  | GetBatch | Update | SetStep _ => True
  | SaveTrainer path => exists n, path = training_path cfg n
  | _ => False
  end.

(** *** Events by phase *)

(** Calls made before the loop. *)
Definition setup_event (cfg : NetConf) (e : Event) : Prop :=
  match e with
  | GetBatch | Split | SkipBatch | Initialize | Evaluate | SetStep _ => True
  | StartVisualization path => path = logdir_path cfg
  | RestoreTrainer path => path = training_path cfg (starting_step cfg)
  | SaveTrainer path => path = validated_path cfg
  | _ => False
  end.

(** Calls made in the loop. *)
Definition loop_event (cfg : NetConf) (e : Event) : Prop :=
  match e with
  | GetBatch | Update | Evaluate | ReturnBatch | HalveLearningRate
  | SetStep _ => True
  | RestoreTrainer path => path = validated_path cfg
  | SaveTrainer path =>
    path = validated_path cfg \/ exists n, path = training_path cfg n
  | _ => False
  end.


(** The logs and the trace grow together. *)
Definition logs_consistent (cfg : NetConf) (ns : Z) (st : TrainState) : Prop :=
  length (loss_lst st) = updates (trace st)
  /\ length (val_error_list st) = count is_evaluate (trace st)
  /\ map fst (val_loss_lst st) = map fst (val_error_list st)
  /\ Forall (fun r => starting_step cfg <= fst r < ns) (loss_lst st)
  /\ Forall (fun r => starting_step cfg <= fst r <= ns) (val_error_list st).

(** *** The trajectory of a run without validation *)

(** Lines 175-178 on the dispenser and the session alone. *)
Definition fetch_and_update (c : Disp * Sess) : Disp * Sess :=
  let '((batch_data, batch_labels), d) := get_batch (fst c) in
  (d, snd (update (snd c) batch_data batch_labels)).

(** Dispenser and session after [k] updates. *)
Definition advance (k : nat) (c : Disp * Sess) : Disp * Sess :=
  Nat.iter k fetch_and_update c.

(** The configuration of a run resumed at step [n]. *)
Definition with_starting_step (cfg : NetConf) (n : Z) : NetConf :=
  {| savedir := savedir cfg; valid_batches := valid_batches cfg;
     num_epochs := num_epochs cfg; starting_step := n;
     valid_frequency := valid_frequency cfg; valid_adapt := valid_adapt cfg;
     valid_retries := valid_retries cfg; check_freq := check_freq cfg;
     visualise := visualise cfg |}.


(** The [validated] checkpoint holds a session whose validation error is
    [validation_error], with the learning rate halved once per retry. *)
Definition validated_holds_best (cfg : NetConf) (val : ValSet)
    (st : TrainState) : Prop :=
  forall vd vl vv,
    val = Some (vd, vl) -> vvars st = Some vv ->
    0 <= num_retries vv
    /\ exists base,
         fst (evaluate base vd vl) = validation_error vv
         /\ store st !! validated_path cfg
            = Some (Nat.iter (Z.to_nat (num_retries vv))
                      halve_learning_rate base).


(** *** Termination measure *)

(** A bound on the iterations left from [st]: the accepted validation steps
    still ahead, the retries left before the limit, and the steps left to
    [num_steps] count in this order. *)
Definition budget (cfg : NetConf) (num_steps : Z) (st : TrainState) : Z :=
  match vvars st with
  | Some vv =>
    ((num_steps - validation_step vv) * (valid_retries cfg + 1)
     + (valid_retries cfg - num_retries vv))
    * (num_steps - starting_step cfg + 1)
    + (num_steps - step st)
  | None => num_steps - step st
  end.

(** The budget of a run that enters the loop at [starting_step]. *)
Definition iteration_bound (cfg : NetConf) (num_steps : Z) : nat :=
  Z.to_nat (((num_steps - starting_step cfg) * (valid_retries cfg + 1)
             + valid_retries cfg)
            * (num_steps - starting_step cfg + 1)
            + (num_steps - starting_step cfg)).

(** What a run needs for the budget to make sense. *)
Definition run_invariant (cfg : NetConf) (num_steps : Z) (st : TrainState) : Prop :=
  steps_ordered cfg st /\ retries_bounded cfg st /\ step st <= num_steps.


End Train.

(** ** Decoding *)

(** The feature reader, by the state [Reader] of its cursor: [get_utt]
    returns the utterance id, its features and the [looped] flag. *)
Class UttReader (Mat Reader : Type) := {
  get_utt : Reader -> (string * Mat * bool) * Reader
}.

(** [decoder(utt_mat)] in a session holding the restored model. *)
Class Decoder (Mat Hyp Sess : Type) := {
  run_decoder : Sess -> Mat -> Hyp
}.

(** How a call of [decode] ends: the dictionary returned, together with the
    matrices the decoder was called on, in order. *)
Inductive DecodeResult (Mat Hyp : Type) :=
| Decoded (nbests : gmap string Hyp) (calls : list Mat)
| DecodeFailed (e : Exn)
| DecodeOutOfFuel.
Arguments Decoded {Mat Hyp}.
Arguments DecodeFailed {Mat Hyp}.
Arguments DecodeOutOfFuel {Mat Hyp}.

Section Decode.

Context {Mat Hyp Reader Sess : Type}.
Context `{!UttReader Mat Reader}.
Context `{!Decoder Mat Hyp Sess}.

(** Lines 283-293: [while True], with a bound on the number of iterations. *)
Fixpoint decode_loop (model : Sess) (fuel : nat) (reader : Reader)
    (nbests : gmap string Hyp) (calls : list Mat) : DecodeResult Mat Hyp :=
  match fuel with
  | O => DecodeOutOfFuel
  | S fuel' =>
    let '((utt_id, utt_mat, looped), reader') := get_utt reader in
    if looped then Decoded nbests calls
    else
      let encoded_hypotheses := run_decoder model utt_mat in
      decode_loop model fuel' reader' (<[utt_id := encoded_hypotheses]> nbests)
        (calls ++ [utt_mat])
  end.

(** [Nnet.decode]: the final model is restored, then the loop runs on an
    empty dictionary. *)
Definition decode (cfg : NetConf) (fuel : nat) (reader : Reader)
    (files : gmap string Sess) : DecodeResult Mat Hyp :=
  match files !! final_path cfg with
  | None => DecodeFailed (RestoreError (final_path cfg))
  | Some model => decode_loop model fuel reader ∅ []
  end.

(** The reader in state [reader] returns the utterances [us] with
    [looped = False], one per call, and [looped = True] on the next call. *)
Fixpoint yields (us : list (string * Mat)) (reader : Reader) : Prop :=
  match us with
  | [] => snd (fst (get_utt reader)) = true
  | (utt_id, utt_mat) :: us' =>
    fst (get_utt reader) = (utt_id, utt_mat, false)
    /\ yields us' (snd (get_utt reader))
  end.

(** The dictionary built by inserting the decoding of each utterance of
    [us], in order, into [acc]. *)
Definition decode_all (model : Sess) (us : list (string * Mat))
    (acc : gmap string Hyp) : gmap string Hyp :=
  foldl (fun m u => <[fst u := run_decoder model (snd u)]> m) acc us.

End Decode.

(** ** A concrete instance

    A dispenser whose state is the number of batches handed out, a trainer
    whose session is the number of updates applied together with a learning
    rate, and a validation error that falls until the second update and
    rises afterwards.  It serves to run the definitions on concrete
    inputs. *)
Module Demo.

#[export] Instance dispenser : Dispenser Z Z Z := {
  get_batch c := (([c], [c]), c + 1);
  return_batch c := c - 1;
  skip_batch c := c + 1;
  split c := c;
  num_batches _ := 4
}.

#[export] Instance trainer : Trainer Z Z Z Z Z (Z * Z) := {
  initialize _ := (0, 16);
  update s _ _ := ((fst s, snd s), (fst s + 1, snd s));
  evaluate s _ _ := (Z.abs (fst s - 2), fst s);
  halve_learning_rate s := (fst s, snd s / 2)
}.

#[export] Instance err_order : ErrOrder Z := {
  err_gt a b := b <? a;
  err_le a b := a <=? b
}.

(** Validation after every step, rollback enabled, one retry. *)
Definition cfg_adapt : NetConf :=
  {| savedir := "exp"; valid_batches := 1; num_epochs := 1;
     starting_step := 0; valid_frequency := 1; valid_adapt := "True";
     valid_retries := 1; check_freq := 2; visualise := "False" |}.

(** The same with rollback disabled. *)
Definition cfg_plain : NetConf :=
  {| savedir := "exp"; valid_batches := 1; num_epochs := 1;
     starting_step := 0; valid_frequency := 1; valid_adapt := "False";
     valid_retries := 1; check_freq := 2; visualise := "False" |}.

(** Rollback enabled with a negative number of retries. *)
Definition cfg_neg_retries : NetConf :=
  {| savedir := "exp"; valid_batches := 1; num_epochs := 1;
     starting_step := 0; valid_frequency := 1; valid_adapt := "True";
     valid_retries := -1; check_freq := 2; visualise := "False" |}.

(** No validation set. *)
Definition cfg_noval : NetConf :=
  {| savedir := "exp"; valid_batches := 0; num_epochs := 1;
     starting_step := 0; valid_frequency := 1; valid_adapt := "True";
     valid_retries := 1; check_freq := 2; visualise := "False" |}.

(** No validation set, resumed from step 6 of an earlier, longer run. *)
Definition cfg_resumed : NetConf :=
  {| savedir := "exp"; valid_batches := 0; num_epochs := 1;
     starting_step := 6; valid_frequency := 1; valid_adapt := "True";
     valid_retries := 1; check_freq := 2; visualise := "False" |}.

(** The checkpoint directory left by that earlier run. *)
Definition files_resumed : gmap string (Z * Z) :=
  {[ "exp/training/step6" := (6, 16) ]}.

(** Rollback enabled with a negative number of retries, validating at the
    last step only. *)
Definition cfg_neg_sparse : NetConf :=
  {| savedir := "exp"; valid_batches := 1; num_epochs := 1;
     starting_step := 0; valid_frequency := 4; valid_adapt := "True";
     valid_retries := -1; check_freq := 2; visualise := "False" |}.


(** State at the first test of the loop condition. *)
Definition start (cfg : NetConf) (files : gmap string (Z * Z))
    : TrainState Z Z Z (Z * Z) :=
  match setup cfg 0 files with
  | inr st => st
  | inl (_, st) => st
  end.

(** State after [n] iterations that ended normally or with [continue]. *)
Fixpoint after (cfg : NetConf) (n : nat) (st : TrainState Z Z Z (Z * Z))
    : TrainState Z Z Z (Z * Z) :=
  match n with
  | O => st
  | S n' =>
    match body cfg (val_set cfg 0) st with
    | Next st' | Continue st' => after cfg n' st'
    | Break st' | Raise _ st' => st'
    end
  end.

(** A reader over three utterances that wraps to the first one. *)
Definition utts : list (string * Z) := [("u1", 10); ("u2", 20); ("u3", 30)].

#[export] Instance reader : UttReader Z nat := {
  get_utt pos :=
    match nth_error utts pos with
    | Some (utt_id, utt_mat) => ((utt_id, utt_mat, false), S pos)
    | None => (("u1", 10, true), 1%nat)
    end
}.

(** A decoder returning one hypothesis and its score. *)
#[export] Instance decoder : Decoder Z (list string * list Z) (Z * Z) := {
  run_decoder model utt_mat := (["hyp"], [utt_mat + fst model])
}.

Definition files_final : gmap string (Z * Z) :=
  {[ "exp/final" := (4, 16) ]}.

End Demo.

(** * Facts *)

Lemma py_mod_nonzero a b : b <> 0 -> py_mod a b = Some (a mod b).
Proof.
  intros Hb. unfold py_mod. destruct (Z.eqb_spec b 0); congruence.
Qed.

Lemma py_mod_zero a : py_mod a 0 = None.
Proof. reflexivity. Qed.

Lemma py_mod_Some a b r : py_mod a b = Some r -> b <> 0 /\ r = a mod b.
Proof.
  unfold py_mod. destruct (Z.eqb_spec b 0); [discriminate |].
  intros [= <-]. auto.
Qed.

Lemma append_cancel_l (a x y : string) : a +:+ x = a +:+ y -> x = y.
Proof.
  induction a as [| c a IH]; cbn; [auto |].
  intros [= E]. auto.
Qed.

Lemma training_not_validated cfg n : training_path cfg n <> validated_path cfg.
Proof.
  unfold training_path, validated_path. intros E.
  apply append_cancel_l in E. discriminate E.
Qed.

Lemma updates_app tr1 tr2 : updates (tr1 ++ tr2) = (updates tr1 + updates tr2)%nat.
Proof.
  induction tr1 as [| e tr1 IH]; [reflexivity |].
  destruct e; cbn; rewrite ?IH; reflexivity.
Qed.

Lemma step_values_app tr1 tr2 :
  step_values (tr1 ++ tr2) = step_values tr1 ++ step_values tr2.
Proof.
  induction tr1 as [| e tr1 IH]; [reflexivity |].
  destruct e; cbn; rewrite ?IH; reflexivity.
Qed.

Lemma updates_repeat e n : e <> Update -> updates (repeat e n) = O.
Proof.
  intros He. induction n as [| n IH]; [reflexivity |].
  cbn. destruct e; try assumption. congruence.
Qed.

Lemma step_values_repeat e n :
  (forall z, e <> SetStep z) -> step_values (repeat e n) = [].
Proof.
  intros He. induction n as [| n IH]; [reflexivity |].
  cbn. destruct e; try assumption. by destruct (He n0).
Qed.

Lemma count_app p tr1 tr2 : count p (tr1 ++ tr2) = (count p tr1 + count p tr2)%nat.
Proof. unfold count. by rewrite List.filter_app, length_app. Qed.

Lemma count_repeat p e n :
  count p (repeat e n) = if p e then n else O.
Proof.
  unfold count. induction n as [| n IH]; cbn; [by destruct (p e) |].
  destruct (p e) eqn:He; cbn; rewrite IH; by rewrite ?He.
Qed.

Lemma count_zero p tr : Forall (fun e => p e = false) tr -> count p tr = O.
Proof.
  unfold count. induction 1 as [| e tr He _ IH]; [done |].
  cbn. by rewrite He.
Qed.

(** [str] is injective on integers. *)
Lemma py_str_inj n m : py_str n = py_str m -> n = m.
Proof.
  unfold py_str. intros E.
  assert (Hnn : forall z, Z.to_int z <> Decimal.Pos Decimal.Nil
                          /\ Z.to_int z <> Decimal.Neg Decimal.Nil).
  { intros [| p | p]; cbn; split; try discriminate;
      intros [= H]; by apply DecimalPos.Unsigned.to_uint_nonnil in H. }
  apply DecimalZ.to_int_inj.
  assert (Some (Z.to_int n) = Some (Z.to_int m)) as [= ->]; [| done].
  rewrite <- (NilZero.isi (Z.to_int n)), <- (NilZero.isi (Z.to_int m));
    try apply Hnn.
  by rewrite E.
Qed.


Section TrainFacts.

Context {Mat Lab Loss Err Lr Disp Sess : Type}.
Context `{!Dispenser Mat Lab Disp}.
Context `{!Trainer Mat Lab Loss Err Lr Sess}.
Context `{!ErrOrder Err}.

Local Abbreviation TrainState := (TrainState Loss Err Disp Sess).
Local Abbreviation Flow := (Flow Loss Err Disp Sess).
Local Abbreviation ValSet := (option (list Mat * list Lab)).

Implicit Types (cfg : NetConf) (val : ValSet) (st : TrainState) (fl : Flow).

(** ** The first half of an iteration *)

Lemma fetch_update_step st : step (fetch_update st) = step st + 1.
Proof.
  unfold fetch_update. destruct (get_batch (disp st)) as [[bd bl] d]. cbn.
  destruct (update (sess st) bd bl) as [[l r] s]. reflexivity.
Qed.

Lemma fetch_update_vvars st : vvars (fetch_update st) = vvars st.
Proof.
  unfold fetch_update. destruct (get_batch (disp st)) as [[bd bl] d]. cbn.
  destruct (update (sess st) bd bl) as [[l r] s]. reflexivity.
Qed.

Lemma fetch_update_store st : store (fetch_update st) = store st.
Proof.
  unfold fetch_update. destruct (get_batch (disp st)) as [[bd bl] d]. cbn.
  destruct (update (sess st) bd bl) as [[l r] s]. reflexivity.
Qed.

Lemma fetch_update_plot st : plot (fetch_update st) = plot st.
Proof.
  unfold fetch_update. destruct (get_batch (disp st)) as [[bd bl] d]. cbn.
  destruct (update (sess st) bd bl) as [[l r] s]. reflexivity.
Qed.

Lemma fetch_update_disp st : disp (fetch_update st) = snd (get_batch (disp st)).
Proof.
  unfold fetch_update. destruct (get_batch (disp st)) as [[bd bl] d]. cbn.
  destruct (update (sess st) bd bl) as [[l r] s]. reflexivity.
Qed.

Lemma fetch_update_val_error_list st :
  val_error_list (fetch_update st) = val_error_list st.
Proof.
  unfold fetch_update. destruct (get_batch (disp st)) as [[bd bl] d]. cbn.
  destruct (update (sess st) bd bl) as [[l r] s]. reflexivity.
Qed.

Lemma fetch_update_val_loss_lst st :
  val_loss_lst (fetch_update st) = val_loss_lst st.
Proof.
  unfold fetch_update. destruct (get_batch (disp st)) as [[bd bl] d]. cbn.
  destruct (update (sess st) bd bl) as [[l r] s]. reflexivity.
Qed.

Lemma fetch_update_trace st :
  trace (fetch_update st) = trace st ++ [GetBatch; Update; SetStep (step st + 1)].
Proof.
  unfold fetch_update. destruct (get_batch (disp st)) as [[bd bl] d]. cbn.
  destruct (update (sess st) bd bl) as [[l r] s]. cbn.
  by rewrite <- !app_assoc.
Qed.

(** ** The paths through the body *)

Lemma validation_classify cfg val st1 :
  validation_case cfg val st1 (validation cfg val st1).
Proof.
  unfold validation, py_mod.
  destruct (Z.eqb_spec (valid_frequency cfg) 0) as [Hvf | Hvf].
  { by constructor. }
  destruct (Z.eqb_spec (step st1 mod valid_frequency cfg) 0) as [Hr | Hr].
  2: { constructor; auto. }
  destruct val as [[vd vl] |]; [| constructor; auto].
  assert (Hlog : logged vd vl st1
                 = push_validation (fst (evaluate (sess st1) vd vl))
                     (snd (evaluate (sess st1) vd vl)) (emit Evaluate st1))
    by reflexivity.
  destruct (evaluate (sess st1) vd vl) as [cur loss] eqn:Hev.
  cbn [fst snd] in Hlog. rewrite <- Hlog.
  destruct (String.eqb_spec (valid_adapt cfg) "True") as [Had | Had].
  2: { replace cur with (fst (evaluate (sess st1) vd vl)) by (by rewrite Hev).
       by eapply case_no_adapt. }
  unfold adapt.
  replace (vvars (logged vd vl st1)) with (vvars st1) by reflexivity.
  destruct (vvars st1) as [vv |] eqn:Hvv.
  2: { by eapply case_unbound. }
  replace cur with (fst (evaluate (sess st1) vd vl)) by (by rewrite Hev).
  destruct (err_gt _ (validation_error vv)) eqn:Hgt.
  - unfold restore_trainer.
    replace (store (return_batches _ (logged vd vl st1))) with (store st1)
      by reflexivity.
    replace (step (logged vd vl st1)) with (step st1) by reflexivity.
    destruct (store st1 !! validated_path cfg) as [snap |] eqn:Hsnap.
    + destruct (Z.eqb_spec (num_retries vv) (valid_retries cfg)) as [Hn | Hn].
      * by eapply case_break.
      * by eapply case_retry.
    + by eapply case_no_checkpoint.
  - by eapply case_accept.
Qed.

Lemma checkpoint_nonzero cfg st :
  check_freq cfg <> 0 -> checkpoint cfg st = Next (checkpointed cfg st).
Proof.
  intros Hcf. unfold checkpoint, checkpointed. rewrite py_mod_nonzero by done.
  by destruct (_ =? 0).
Qed.

Lemma checkpoint_zero cfg st :
  check_freq cfg = 0 -> checkpoint cfg st = Raise ZeroDivisionError st.
Proof. intros Hcf. unfold checkpoint. by rewrite Hcf. Qed.

(** ** Invariant rules for the loop *)

Lemma body_preserves_keeps cfg val ns (P : TrainState -> Prop) :
  body_preserves cfg val ns P -> body_keeps cfg val ns P.
Proof.
  intros HP st Hst Hlt. specialize (HP st Hst Hlt).
  by destruct (body cfg val st).
Qed.

Lemma reachable_invariant cfg val ns (P : TrainState -> Prop) st0 st :
  body_keeps cfg val ns P -> P st0 -> reachable cfg val ns st0 st -> P st.
Proof.
  intros HP H0 Hr. induction Hr as [| st st' Hr IH Hlt Hb]; [done |].
  specialize (HP st IH Hlt). by destruct Hb as [Hb | Hb]; rewrite Hb in HP.
Qed.

Lemma loop_invariant cfg val ns (P : TrainState -> Prop) fuel st :
  body_preserves cfg val ns P -> P st ->
  P (result_state (loop cfg val ns fuel st)).
Proof.
  intros HP. revert st. induction fuel as [| fuel IH]; intros st Hst; cbn.
  - by destruct (step st <? ns).
  - destruct (Z.ltb_spec (step st) ns) as [Hlt | Hge]; [| done].
    specialize (HP st Hst Hlt).
    destruct (body cfg val st) as [st' | st' | st' | e st']; cbn in *; auto.
Qed.

Lemma loop_done_invariant cfg val ns (P : TrainState -> Prop) fuel st st' :
  body_keeps cfg val ns P -> P st ->
  loop cfg val ns fuel st = Done st' -> P st'.
Proof.
  intros HP. revert st. induction fuel as [| fuel IH]; intros st Hst; cbn.
  - destruct (step st <? ns); [discriminate |]. by intros [= <-].
  - destruct (Z.ltb_spec (step st) ns) as [Hlt | Hge]; [| by intros [= <-]].
    specialize (HP st Hst Hlt).
    destruct (body cfg val st) as [st1 | st1 | st1 | e st1]; cbn in *;
      eauto; [by intros [= <-] | discriminate].
Qed.

(** A run that is [Done] stopped at the loop condition or at a [break]. *)
Lemma loop_done_reachable cfg val ns fuel st0 st st' :
  reachable cfg val ns st0 st ->
  loop cfg val ns fuel st = Done st' ->
  (reachable cfg val ns st0 st' /\ ns <= step st')
  \/ exists st1, reachable cfg val ns st0 st1 /\ step st1 < ns
                 /\ body cfg val st1 = Break st'.
Proof.
  revert st. induction fuel as [| fuel IH]; intros st Hr; cbn.
  - destruct (Z.ltb_spec (step st) ns); [discriminate |].
    intros [= <-]. auto.
  - destruct (Z.ltb_spec (step st) ns) as [Hlt | Hge].
    2: { intros [= <-]. auto. }
    destruct (body cfg val st) as [st1 | st1 | st1 | e st1] eqn:Hb.
    + apply IH. eapply reach_next; eauto.
    + apply IH. eapply reach_next; eauto.
    + intros [= <-]. right. eauto.
    + discriminate.
Qed.

(** Simplification of the fields of the states an iteration goes through. *)
Ltac fields :=
  unfold accepted, rolled_back, retried, logged, checkpointed, teardown in *;
  cbn [step vvars loss_lst val_loss_lst val_error_list disp sess store plot
       trace set_step set_vvars push_loss push_validation with_disp with_sess
       emit save_trainer save_model pickle_dump return_batches flow_state
       validation_error validation_step num_retries] in *;
  rewrite ?fetch_update_step, ?fetch_update_vvars, ?fetch_update_store,
    ?fetch_update_plot, ?fetch_update_val_error_list,
    ?fetch_update_val_loss_lst, ?fetch_update_trace, ?fetch_update_disp in *.

(** Case analysis on the path [validation] takes from [st1]. *)
Ltac validation_paths cfg val st1 :=
  destruct (validation_classify cfg val st1) as
    [ Hzero
    | Hfreq Hquiet
    | vd' vl' Hfreq Hmod' Hval' Hplain
    | vd' vl' Hfreq Hmod' Hval' Hadapt' Hnone
    | vd' vl' vv' Hfreq Hmod' Hval' Hadapt' Hvv' Hgt'
    | vd' vl' vv' Hfreq Hmod' Hval' Hadapt' Hvv' Hgt' Hnosnap
    | vd' vl' vv' snap' Hfreq Hmod' Hval' Hadapt' Hvv' Hgt' Hsnap' Hlimit
    | vd' vl' vv' snap' Hfreq Hmod' Hval' Hadapt' Hvv' Hgt' Hsnap' Hlimit ].

(** Case analysis on the path the iteration starting in [st] takes. *)
Ltac body_paths cfg val st :=
  unfold body;
  validation_paths cfg val (fetch_update st);
  cbv beta iota;
  try match goal with
      | |- context [checkpoint cfg ?X] =>
        let Hcf := fresh "Hcf" in
        let Hdiv := fresh "Hdiv" in
        destruct (Z.eq_dec (check_freq cfg) 0) as [Hcf | Hcf];
        [ rewrite (checkpoint_zero cfg X Hcf)
        | rewrite (checkpoint_nonzero cfg X Hcf); unfold checkpointed;
          destruct (Z.eqb_spec (step X mod check_freq cfg) 0) as [Hdiv | Hdiv] ]
      end.

Lemma validation_ready_kept cfg val ns :
  body_preserves cfg val ns (validation_ready cfg val).
Proof.
  intros st Hst _ Hval. specialize (Hst Hval). destruct Hst as [Hv Hs].
  body_paths cfg val st; fields; rewrite ?lookup_insert_is_Some'; auto.
  all: try (split; [done | auto]).
  all: try (split; [eauto | auto]).
  all: congruence.
Qed.


(** ** The state in which the loop is entered *)

Lemma val_set_None cfg (d : Disp) :
  val_set cfg d = None <-> valid_batches cfg <= 0.
Proof.
  unfold val_set, validation_set.
  destruct (Z.ltb_spec 0 (valid_batches cfg)) as [Hv | Hv].
  - destruct (draw_batches _ d). cbn. split; [discriminate | lia].
  - cbn. split; [lia | done].
Qed.

Lemma initial_state_fields cfg (d : Disp) files :
  let st := initial_state cfg d files in
  step st = starting_step cfg /\ vvars st = None /\ loss_lst st = []
  /\ val_loss_lst st = [] /\ val_error_list st = [] /\ store st = files
  /\ plot st = None /\ step_values (trace st) = [starting_step cfg]
  /\ updates (trace st) = O
  /\ Forall (fun e => e <> SaveTrainer (validated_path cfg)
                      /\ e <> RestoreTrainer (validated_path cfg)
                      /\ e <> HalveLearningRate /\ e <> ReturnBatch
                      /\ e <> Evaluate) (trace st).
Proof.
  unfold initial_state. destruct (validation_set cfg d) as [[v d1] drawn]. cbn.
  repeat split.
  - rewrite ?step_values_app, ?step_values_repeat by done. cbn.
    rewrite ?step_values_app, ?step_values_repeat by done.
    by destruct (String.eqb _ _).
  - rewrite ?updates_app, ?updates_repeat by done. cbn.
    rewrite ?updates_app, ?updates_repeat by done.
    by destruct (String.eqb _ _).
  - repeat (first [rewrite Forall_app | rewrite Forall_cons]).
    repeat split; try done.
    + apply Forall_forall. intros e He%list_elem_of_In%repeat_spec. by subst.
    + apply Forall_forall. intros e He%list_elem_of_In%repeat_spec. by subst.
    + destruct (String.eqb _ _); repeat constructor; done.
Qed.

Lemma resume_fields cfg st st' :
  resume cfg st = inr st' ->
  step st' = step st /\ vvars st' = vvars st /\ loss_lst st' = loss_lst st
  /\ val_loss_lst st' = val_loss_lst st
  /\ val_error_list st' = val_error_list st /\ store st' = store st
  /\ plot st' = plot st /\ disp st' = disp st
  /\ (trace st' = trace st
      \/ trace st' = trace st ++ [RestoreTrainer (training_path cfg (step st))]).
Proof.
  unfold resume, restore_trainer. destruct (0 <? step st).
  - destruct (store st !! _); [| discriminate].
    intros [= <-]. cbn. repeat split; auto.
  - intros [= <-]. repeat split; auto.
Qed.

Lemma setup_resumed cfg (d : Disp) files st0 :
  setup cfg d files = inr st0 ->
  exists st, resume cfg (initial_state cfg d files) = inr st
             /\ st0 = initial_validation cfg (val_set cfg d) st.
Proof.
  unfold setup. destruct (resume cfg _) as [err | st]; [discriminate |].
  intros [= <-]. eauto.
Qed.

Lemma initial_validation_fields cfg val st :
  let st' := initial_validation cfg val st in
  step st' = step st /\ loss_lst st' = loss_lst st /\ plot st' = plot st
  /\ disp st' = disp st /\ sess st' = sess st
  /\ step_values (trace st') = step_values (trace st)
  /\ updates (trace st') = updates (trace st)
  /\ match val with
     | Some (vd, vl) =>
       vvars st' = Some {| validation_error := fst (evaluate (sess st) vd vl);
                           validation_step := step st; num_retries := 0 |}
       /\ store st' = <[validated_path cfg := sess st]> (store st)
     | None => st' = st
     end.
Proof.
  unfold initial_validation. destruct val as [[vd vl] |]; [| by repeat split].
  destruct (evaluate (sess st) vd vl) as [verr vloss]. cbn.
  rewrite !step_values_app, !updates_app. cbn. rewrite !app_nil_r.
  repeat split; lia.
Qed.

Lemma setup_step cfg (d : Disp) files st0 :
  setup cfg d files = inr st0 -> step st0 = starting_step cfg.
Proof.
  intros (st & Hres & ->)%setup_resumed.
  destruct (resume_fields _ _ _ Hres) as (Hs & _).
  destruct (initial_validation_fields cfg (val_set cfg d) st) as (-> & _).
  rewrite Hs. apply (initial_state_fields cfg d files).
Qed.

Lemma setup_step_values cfg (d : Disp) files st0 :
  setup cfg d files = inr st0 ->
  step_values (trace st0) = [starting_step cfg].
Proof.
  intros (st & Hres & ->)%setup_resumed.
  destruct (initial_validation_fields cfg (val_set cfg d) st)
    as (_ & _ & _ & _ & _ & -> & _).
  destruct (resume_fields _ _ _ Hres) as (_ & _ & _ & _ & _ & _ & _ & _ & Ht).
  destruct (initial_state_fields cfg d files) as (_ & _ & _ & _ & _ & _ & _ & Hv & _).
  destruct Ht as [-> | ->]; [done |].
  rewrite step_values_app, Hv. reflexivity.
Qed.

Lemma setup_updates cfg (d : Disp) files st0 :
  setup cfg d files = inr st0 -> updates (trace st0) = O.
Proof.
  intros (st & Hres & ->)%setup_resumed.
  destruct (initial_validation_fields cfg (val_set cfg d) st)
    as (_ & _ & _ & _ & _ & _ & -> & _).
  destruct (resume_fields _ _ _ Hres) as (_ & _ & _ & _ & _ & _ & _ & _ & Ht).
  destruct (initial_state_fields cfg d files)
    as (_ & _ & _ & _ & _ & _ & _ & _ & Hu & _).
  destruct Ht as [-> | ->]; [done |].
  rewrite updates_app, Hu. reflexivity.
Qed.

Lemma setup_vvars cfg (d : Disp) files st0 :
  setup cfg d files = inr st0 ->
  match val_set cfg d with
  | Some _ =>
    exists verr,
      vvars st0 = Some {| validation_error := verr;
                          validation_step := starting_step cfg;
                          num_retries := 0 |}
      /\ is_Some (store st0 !! validated_path cfg)
  | None => vvars st0 = None /\ store st0 = files
            /\ val_loss_lst st0 = [] /\ val_error_list st0 = []
  end.
Proof.
  intros (st & Hres & ->)%setup_resumed.
  destruct (resume_fields _ _ _ Hres) as (Hs & Hv & _ & Hl & He & Hst & _).
  destruct (initial_state_fields cfg d files)
    as (Hs0 & Hv0 & _ & Hl0 & He0 & Hst0 & _).
  destruct (initial_validation_fields cfg (val_set cfg d) st)
    as (_ & _ & _ & _ & _ & _ & _ & Hval).
  destruct (val_set cfg d) as [[vd vl] |].
  - destruct Hval as [-> ->]. rewrite Hs, Hs0. eexists. split; [done |].
    rewrite lookup_insert_eq. eauto.
  - rewrite Hval. repeat split; congruence.
Qed.


(** ** Invariants kept by the body *)

(** Use a fact [Hv] about the bound validation variables on every equation
    [vvars _ = Some _] at hand. *)
Ltac use_vvars Hv :=
  try match goal with
      | H1 : vvars ?s = Some ?a, H2 : vvars ?s = Some ?b |- _ =>
        assert (b = a) as -> by congruence
      end;
  repeat match goal with
         | H : vvars _ = Some _ |- _ => pose proof (Hv _ H); clear H
         end.

Lemma steps_ordered_kept cfg val ns :
  body_preserves cfg val ns (steps_ordered cfg).
Proof.
  intros st [Hs Hv] _. unfold steps_ordered.
  body_paths cfg val st; fields; split; try lia.
  all: try intros w Hw; try (injection Hw as <-; cbn).
  all: use_vvars Hv; lia.
Qed.

Lemma retries_bounded_kept cfg val ns :
  0 <= valid_retries cfg ->
  body_preserves cfg val ns (retries_bounded cfg).
Proof.
  intros Hr st Hv _. unfold retries_bounded in *.
  body_paths cfg val st; fields; try done.
  all: try intros w Hw; try (injection Hw as <-; cbn).
  all: use_vvars Hv; lia.
Qed.

Lemma steps_in_range_kept cfg val ns :
  body_preserves cfg val ns
    (fun st => steps_ordered cfg st /\ 0 <= starting_step cfg
               /\ step st <= ns /\ steps_in_range ns st).
Proof.
  intros st (Hord & H0 & Hle & Hrange) Hlt.
  split; [by apply (steps_ordered_kept cfg val ns) |].
  split; [done |].
  destruct Hord as [Hs Hv]. unfold steps_in_range in *.
  body_paths cfg val st; fields;
    rewrite ?step_values_app, ?step_values_repeat by done;
    cbn [step_values app]; rewrite ?app_nil_r.
  all: use_vvars Hv; split; [lia |].
  all: rewrite ?Forall_app; repeat split; try done.
  all: repeat constructor; lia.
Qed.


Lemma checkpoints_saved_kept cfg val ns :
  body_keeps cfg val ns
    (fun st => steps_ordered cfg st /\ checkpoints_saved cfg st).
Proof.
  intros st [Hord Hck] Hlt.
  pose proof (steps_ordered_kept cfg val ns st Hord Hlt) as Hord'.
  revert Hord'. destruct Hord as [Hs Hv]. unfold checkpoints_saved in *.
  body_paths cfg val st; fields; try done.
  all: intros Hord'; split; [exact Hord' | clear Hord'].
  all: intros n Hn Hmod; use_vvars Hv.
  all: destruct (Z.le_gt_cases n (step st)) as [Hold | Hnew];
    [ destruct (Hck n) as [Hin Hst]; [lia | done |];
      rewrite ?lookup_insert_is_Some', ?elem_of_app; split; tauto
    | try lia ].
  all: assert (n = step st + 1) as -> by lia; try done.
  all: rewrite ?lookup_insert_is_Some', ?elem_of_app, ?list_elem_of_singleton.
  all: split; auto.
Qed.


(** ** The dispenser cursor *)

Section RoundTrip.

(** [return_batch] undoes [get_batch] on the cursor. *)
Hypothesis return_get :
  forall d : Disp, return_batch (snd (get_batch d)) = d.

Lemma rewind_undoes n (d : Disp) :
  Nat.iter n return_batch (Nat.iter n (fun d => snd (get_batch d)) d) = d.
Proof.
  induction n as [| n IH]; [reflexivity |].
  rewrite (Nat.iter_succ_r n return_batch), Nat.iter_succ.
  by rewrite return_get.
Qed.

Lemma cursor_follows_step_kept cfg val ns (d0 : Disp) :
  body_keeps cfg val ns
    (fun st => steps_ordered cfg st /\ cursor_follows_step cfg d0 st).
Proof.
  intros st [Hord Hcur] Hlt.
  pose proof (steps_ordered_kept cfg val ns st Hord Hlt) as Hord'.
  revert Hord'. destruct Hord as [Hs Hv]. unfold cursor_follows_step in *.
  assert (Hnext : snd (get_batch (disp st))
                  = Nat.iter (Z.to_nat (step st + 1 - starting_step cfg))
                      (fun d => snd (get_batch d)) d0).
  { replace (Z.to_nat (step st + 1 - starting_step cfg))
      with (S (Z.to_nat (step st - starting_step cfg))) by lia.
    rewrite Nat.iter_succ. by rewrite <- Hcur. }
  body_paths cfg val st; fields; try done.
  all: intros Hord'; split; [exact Hord' | clear Hord']; try done.
  all: use_vvars Hv; unfold py_range; rewrite Hnext.
  all: replace (Z.to_nat (step st + 1 - starting_step cfg))
         with (Z.to_nat (step st + 1 - validation_step vv')
               + Z.to_nat (validation_step vv' - starting_step cfg))%nat by lia.
  all: by rewrite Nat.iter_add, rewind_undoes.
Qed.

End RoundTrip.


(** ** The validation trigger, path by path *)

Lemma validation_due_fetch cfg val st vd vl :
  validation_due cfg val st vd vl ->
  valid_frequency cfg <> 0
  /\ step (fetch_update st) mod valid_frequency cfg = 0
  /\ val = Some (vd, vl).
Proof. intros (Hvf & Hmod & Hval). by rewrite fetch_update_step. Qed.

Lemma validation_no_adapt cfg val st vd vl :
  validation_due cfg val st vd vl ->
  valid_adapt cfg <> "True" ->
  validation cfg val (fetch_update st) = Next (logged vd vl (fetch_update st)).
Proof.
  intros (Hvf & Hmod & Hval)%validation_due_fetch Had.
  validation_paths cfg val (fetch_update st); try done;
    [destruct Hquiet; congruence | congruence].
Qed.

Lemma validation_accept cfg val st vd vl vv :
  validation_due cfg val st vd vl ->
  valid_adapt cfg = "True" ->
  vvars st = Some vv ->
  err_gt (current_error vd vl st) (validation_error vv) = false ->
  validation cfg val (fetch_update st)
  = Next (accepted cfg (current_error vd vl st) (logged vd vl (fetch_update st))).
Proof.
  intros (Hvf & Hmod & Hval)%validation_due_fetch Had Hvv Hgt.
  unfold current_error in *.
  validation_paths cfg val (fetch_update st);
    rewrite ?fetch_update_vvars in *; try done; try congruence.
  destruct Hquiet; congruence.
Qed.

Lemma validation_rollback cfg val st vd vl vv snap :
  validation_due cfg val st vd vl ->
  valid_adapt cfg = "True" ->
  vvars st = Some vv ->
  err_gt (current_error vd vl st) (validation_error vv) = true ->
  store st !! validated_path cfg = Some snap ->
  validation cfg val (fetch_update st)
  = if num_retries vv =? valid_retries cfg
    then Break (rolled_back cfg vv snap (logged vd vl (fetch_update st)))
    else Continue (retried vv (rolled_back cfg vv snap
                                 (logged vd vl (fetch_update st)))).
Proof.
  intros (Hvf & Hmod & Hval)%validation_due_fetch Had Hvv Hgt Hsnap.
  unfold current_error in *.
  validation_paths cfg val (fetch_update st);
    rewrite ?fetch_update_vvars, ?fetch_update_store in *;
    try done; try congruence.
  - destruct Hquiet; congruence.
  - assert (vv' = vv) as -> by congruence.
    assert (snap' = snap) as -> by congruence.
    assert (vd' = vd /\ vl' = vl) as [-> ->] by (split; congruence).
    by destruct (Z.eqb_spec (num_retries vv) (valid_retries cfg)).
  - assert (vv' = vv) as -> by congruence.
    assert (snap' = snap) as -> by congruence.
    assert (vd' = vd /\ vl' = vl) as [-> ->] by (split; congruence).
    by destruct (Z.eqb_spec (num_retries vv) (valid_retries cfg)).
Qed.

Lemma retried_fields (vv : ValVars Err) st :
  step (retried vv st) = step st
  /\ vvars (retried vv st)
     = Some {| validation_error := validation_error vv;
               validation_step := validation_step vv;
               num_retries := num_retries vv + 1 |}
  /\ trace (retried vv st) = trace st
  /\ disp (retried vv st) = disp st
  /\ sess (retried vv st) = sess st
  /\ store (retried vv st) = store st.
Proof. repeat split. Qed.

Lemma rolled_back_fields cfg vv snap vd vl st :
  let st' := rolled_back cfg vv snap (logged vd vl (fetch_update st)) in
  step st' = validation_step vv
  /\ vvars st' = vvars st
  /\ sess st' = halve_learning_rate snap
  /\ store st' = <[validated_path cfg := halve_learning_rate snap]> (store st)
  /\ disp st' = Nat.iter (Z.to_nat (step st + 1 - validation_step vv))
                  return_batch (snd (get_batch (disp st)))
  /\ trace st' = trace st ++ [GetBatch; Update; SetStep (step st + 1); Evaluate]
                 ++ repeat ReturnBatch (Z.to_nat (step st + 1 - validation_step vv))
                 ++ [RestoreTrainer (validated_path cfg); HalveLearningRate;
                     SaveTrainer (validated_path cfg);
                     SetStep (validation_step vv)].
Proof.
  fields. unfold py_range. repeat split.
  by rewrite <- !app_assoc.
Qed.

Lemma setup_validation_ready cfg (d : Disp) files st0 :
  setup cfg d files = inr st0 -> validation_ready cfg (val_set cfg d) st0.
Proof.
  intros Hsetup Hval. pose proof (setup_vvars _ _ _ _ Hsetup) as Hv.
  destruct (val_set cfg d); [| done].
  destruct Hv as (verr & -> & Hs). eauto.
Qed.

Lemma setup_steps_ordered cfg (d : Disp) files st0 :
  setup cfg d files = inr st0 -> steps_ordered cfg st0.
Proof.
  intros Hsetup. pose proof (setup_vvars _ _ _ _ Hsetup) as Hv.
  pose proof (setup_step _ _ _ _ Hsetup) as Hs.
  split; [lia |].
  intros vv Hvv. destruct (val_set cfg d).
  - destruct Hv as (verr & Hv & _). rewrite Hv in Hvv. injection Hvv as <-.
    cbn. lia.
  - destruct Hv as (Hv & _). congruence.
Qed.


(** ** Validation without adaptive rollback *)

(** Claim C1, as amended.  On a validation trigger with adaptive rollback
    disabled ([valid_adapt] is not ['True']) the loop evaluates the model and
    appends the result to the validation logs, and does nothing else for the
    validation: the validation variables ([validation_error],
    [validation_step], [num_retries]) keep their values, no [validated]
    checkpoint is written in the iteration and the one in place is
    untouched.  The iteration goes on to the checkpoint trigger, and returns
    to training when [check_freq] is not zero. *)
Theorem C1_validation_without_adapt_only_logs cfg val st vd vl :
  valid_adapt cfg <> "True" ->
  validation_due cfg val st vd vl ->
  let st2 := logged vd vl (fetch_update st) in
  validation cfg val (fetch_update st) = Next st2
  /\ body cfg val st = checkpoint cfg st2
  /\ val_error_list st2
     = val_error_list st ++ [(step st + 1, current_error vd vl st)]
  /\ val_loss_lst st2
     = val_loss_lst st
       ++ [(step st + 1, snd (evaluate (sess (fetch_update st)) vd vl))]
  /\ trace st2 = trace st ++ [GetBatch; Update; SetStep (step st + 1); Evaluate]
  /\ vvars (flow_state (body cfg val st)) = vvars st
  /\ store (flow_state (body cfg val st)) !! validated_path cfg
     = store st !! validated_path cfg
  /\ (exists evs, trace (flow_state (body cfg val st)) = trace st ++ evs
                  /\ SaveTrainer (validated_path cfg) ∉ evs)
  /\ (check_freq cfg <> 0 -> exists st', body cfg val st = Next st').
Proof.
  intros Had Hdue st2.
  pose proof (validation_no_adapt _ _ _ _ _ Hdue Had) as Hval.
  assert (Hbody : body cfg val st = checkpoint cfg st2).
  { unfold body. by rewrite Hval. }
  split; [done |]. split; [done |].
  subst st2. unfold current_error. rewrite Hbody.
  repeat split.
  - by fields.
  - by fields.
  - fields. by rewrite <- app_assoc.
  - destruct (Z.eq_dec (check_freq cfg) 0) as [Hcf | Hcf].
    + rewrite checkpoint_zero by done. by fields.
    + rewrite checkpoint_nonzero by done. fields.
      by destruct (_ =? 0); fields.
  - destruct (Z.eq_dec (check_freq cfg) 0) as [Hcf | Hcf].
    + rewrite checkpoint_zero by done. by fields.
    + rewrite checkpoint_nonzero by done. fields.
      destruct (_ =? 0); fields; [| done].
      rewrite lookup_insert_ne; [done |]. apply training_not_validated.
  - destruct (Z.eq_dec (check_freq cfg) 0) as [Hcf | Hcf].
    + rewrite checkpoint_zero by done. fields.
      eexists. rewrite <- app_assoc. split; [done |].
      cbn. rewrite !elem_of_cons. intros [? | [? | [? | [? | []%elem_of_nil]]]];
        done.
    + rewrite checkpoint_nonzero by done. fields.
      destruct (_ =? 0); fields; eexists; rewrite <- ?app_assoc;
        (split; [done |]); cbn; rewrite !elem_of_cons.
      * intros [? | [? | [? | [? | [E | []%elem_of_nil]]]]]; try done.
        injection E as E. symmetry in E. by apply training_not_validated in E.
      * intros [? | [? | [? | [? | []%elem_of_nil]]]]; done.
  - intros Hcf. rewrite checkpoint_nonzero by done. eauto.
Qed.

(** ** Rollback *)

(** What a rollback does to the state and to the trace. *)
Lemma rollback_outcome cfg (d : Disp) files st0 st vd vl vv :
  setup cfg d files = inr st0 ->
  reachable cfg (val_set cfg d) (total_steps cfg d) st0 st ->
  valid_adapt cfg = "True" ->
  validation_due cfg (val_set cfg d) st vd vl ->
  vvars st = Some vv ->
  err_gt (current_error vd vl st) (validation_error vv) = true ->
  exists snap st',
    store st !! validated_path cfg = Some snap
    /\ (body cfg (val_set cfg d) st = Break st'
        \/ body cfg (val_set cfg d) st = Continue st')
    /\ trace st'
       = trace st ++ [GetBatch; Update; SetStep (step st + 1); Evaluate]
         ++ repeat ReturnBatch (Z.to_nat (step st + 1 - validation_step vv))
         ++ [RestoreTrainer (validated_path cfg); HalveLearningRate;
             SaveTrainer (validated_path cfg); SetStep (validation_step vv)]
    /\ disp st' = Nat.iter (Z.to_nat (step st + 1 - validation_step vv))
                    return_batch (snd (get_batch (disp st)))
    /\ sess st' = halve_learning_rate snap
    /\ store st' = <[validated_path cfg := halve_learning_rate snap]> (store st)
    /\ step st' = validation_step vv.
Proof.
  intros Hsetup Hreach Had Hdue Hvv Hgt.
  assert (Hready : validation_ready cfg (val_set cfg d) st).
  { eapply reachable_invariant; [| | exact Hreach].
    - apply body_preserves_keeps, validation_ready_kept.
    - by eapply setup_validation_ready. }
  destruct Hready as [_ [snap Hsnap]].
  { destruct Hdue as (_ & _ & ->). done. }
  pose proof (validation_rollback _ _ _ _ _ _ _ Hdue Had Hvv Hgt Hsnap) as Hval.
  destruct (rolled_back_fields cfg vv snap vd vl st)
    as (Hstep & Hvars & Hsess & Hstore & Hdisp & Htrace).
  exists snap. unfold body. rewrite Hval.
  destruct (num_retries vv =? valid_retries cfg).
  - exists (rolled_back cfg vv snap (logged vd vl (fetch_update st))).
    split; [exact Hsnap |]. split; [left; reflexivity |].
    exact (conj Htrace (conj Hdisp (conj Hsess (conj Hstore Hstep)))).
  - exists (retried vv (rolled_back cfg vv snap (logged vd vl (fetch_update st)))).
    split; [exact Hsnap |]. split; [right; reflexivity |].
    destruct (retried_fields vv
                (rolled_back cfg vv snap (logged vd vl (fetch_update st))))
      as (-> & _ & -> & -> & -> & ->).
    exact (conj Htrace (conj Hdisp (conj Hsess (conj Hstore Hstep)))).
Qed.

(** Claim C2.  On a validation trigger with adaptive rollback enabled and
    [current_error > validation_error], the iteration performs, in this
    order: [step - validation_step] calls of [return_batch] (with [step] the
    incremented counter), the restore of the session from the [validated]
    checkpoint, the halving of the learning rate, the save of the
    [validated] checkpoint (which then holds the halved session), and the
    assignment [step := validation_step]. *)
Theorem C2_rollback_sequence cfg (d : Disp) files st0 st vd vl vv :
  setup cfg d files = inr st0 ->
  reachable cfg (val_set cfg d) (total_steps cfg d) st0 st ->
  valid_adapt cfg = "True" ->
  validation_due cfg (val_set cfg d) st vd vl ->
  vvars st = Some vv ->
  err_gt (current_error vd vl st) (validation_error vv) = true ->
  exists snap st',
    store st !! validated_path cfg = Some snap
    /\ (body cfg (val_set cfg d) st = Break st'
        \/ body cfg (val_set cfg d) st = Continue st')
    /\ trace st'
       = trace st ++ [GetBatch; Update; SetStep (step st + 1); Evaluate]
         ++ repeat ReturnBatch (Z.to_nat (step st + 1 - validation_step vv))
         ++ [RestoreTrainer (validated_path cfg); HalveLearningRate;
             SaveTrainer (validated_path cfg); SetStep (validation_step vv)]
    /\ disp st' = Nat.iter (Z.to_nat (step st + 1 - validation_step vv))
                    return_batch (snd (get_batch (disp st)))
    /\ sess st' = halve_learning_rate snap
    /\ store st' = <[validated_path cfg := halve_learning_rate snap]> (store st)
    /\ step st' = validation_step vv.
Proof. apply rollback_outcome. Qed.


Lemma setup_retries_bounded cfg (d : Disp) files st0 :
  0 <= valid_retries cfg ->
  setup cfg d files = inr st0 -> retries_bounded cfg st0.
Proof.
  intros Hr Hsetup vv Hvv. pose proof (setup_vvars _ _ _ _ Hsetup) as Hv.
  destruct (val_set cfg d).
  - destruct Hv as (verr & Hv & _). rewrite Hv in Hvv. injection Hvv as <-.
    cbn. lia.
  - destruct Hv as (Hv & _). congruence.
Qed.

Lemma train_result cfg fuel (d : Disp) files st0 :
  setup cfg d files = inr st0 ->
  train cfg fuel d files
  = match loop cfg (val_set cfg d) (total_steps cfg d) fuel st0 with
    | Done st' => Done (teardown cfg st')
    | other => other
    end.
Proof. intros Hsetup. unfold train. by rewrite Hsetup. Qed.

(** Claim C3, as amended.  In every run with [valid_retries >= 0],
    [num_retries] stays within [0 .. valid_retries]: in every state at the
    loop condition, in the state every bounded run of the loop stops in, and
    in the state [train] ends in.  On a rollback with
    [num_retries = valid_retries] the loop ends there: [step] is
    [validation_step], which does not exceed [num_steps], and no update
    follows.  On a rollback with [num_retries <> valid_retries],
    [num_retries] is incremented and the loop goes on from
    [step = validation_step]. *)
Theorem C3_retries_bounded cfg (d : Disp) files st0 :
  0 <= valid_retries cfg ->
  setup cfg d files = inr st0 ->
  let val := val_set cfg d in
  let ns := total_steps cfg d in
  (forall st vv, reachable cfg val ns st0 st -> vvars st = Some vv ->
     0 <= num_retries vv <= valid_retries cfg)
  /\ (forall fuel vv,
        vvars (result_state (loop cfg val ns fuel st0)) = Some vv ->
        0 <= num_retries vv <= valid_retries cfg)
  /\ (forall fuel vv,
        vvars (result_state (train cfg fuel d files)) = Some vv ->
        0 <= num_retries vv <= valid_retries cfg)
  /\ (forall st vd vl vv,
        reachable cfg val ns st0 st -> step st < ns ->
        valid_adapt cfg = "True" ->
        validation_due cfg val st vd vl ->
        vvars st = Some vv ->
        err_gt (current_error vd vl st) (validation_error vv) = true ->
        (num_retries vv = valid_retries cfg ->
         exists st',
           body cfg val st = Break st'
           /\ (forall fuel, loop cfg val ns (S fuel) st = Done st')
           /\ updates (trace (teardown cfg st')) = updates (trace st')
           /\ step st' = validation_step vv
           /\ step st' <= ns)
        /\ (num_retries vv <> valid_retries cfg ->
            exists st',
              body cfg val st = Continue st'
              /\ (forall fuel,
                    loop cfg val ns (S fuel) st = loop cfg val ns fuel st')
              /\ vvars st'
                 = Some {| validation_error := validation_error vv;
                           validation_step := validation_step vv;
                           num_retries := num_retries vv + 1 |}
              /\ step st' = validation_step vv)).
Proof.
  intros Hr Hsetup val ns.
  pose proof (setup_retries_bounded _ _ _ _ Hr Hsetup) as H0.
  pose proof (retries_bounded_kept cfg val ns Hr) as Hkept.
  assert (Hloop : forall fuel vv,
             vvars (result_state (loop cfg val ns fuel st0)) = Some vv ->
             0 <= num_retries vv <= valid_retries cfg).
  { intros fuel. by apply (loop_invariant cfg val ns (retries_bounded cfg)). }
  split; [| split; [exact Hloop | split]].
  - intros st vv Hreach.
    by apply (reachable_invariant cfg val ns (retries_bounded cfg) st0 st);
      [apply body_preserves_keeps | |].
  - intros fuel vv. rewrite (train_result _ _ _ _ _ Hsetup).
    specialize (Hloop fuel vv). fold val ns.
    by destruct (loop cfg val ns fuel st0).
  - intros st vd vl vv Hreach Hlt Had Hdue Hvv Hgt.
    assert (Hready : validation_ready cfg val st).
    { apply (reachable_invariant cfg val ns _ st0 st); [| | done].
      - apply body_preserves_keeps, validation_ready_kept.
      - by eapply setup_validation_ready. }
    destruct Hready as [_ [snap Hsnap]].
    { destruct Hdue as (_ & _ & ->). done. }
    assert (Hord : steps_ordered cfg st).
    { apply (reachable_invariant cfg val ns _ st0 st); [| | done].
      - apply body_preserves_keeps, steps_ordered_kept.
      - by eapply setup_steps_ordered. }
    destruct Hord as [_ Hord]. specialize (Hord _ Hvv).
    pose proof (validation_rollback _ _ _ _ _ _ _ Hdue Had Hvv Hgt Hsnap)
      as Hval.
    destruct (rolled_back_fields cfg vv snap vd vl st) as (Hstep & _).
    split; intros Hn.
    + apply Z.eqb_eq in Hn. rewrite Hn in Hval.
      assert (Hb : body cfg val st
                   = Break (rolled_back cfg vv snap
                              (logged vd vl (fetch_update st)))).
      { unfold body. by rewrite Hval. }
      eexists. split; [exact Hb |]. split; [| split; [| split]].
      * intros fuel. cbn [loop]. rewrite Hb.
        by destruct (Z.ltb_spec (step st) ns); [| lia].
      * unfold teardown.
        cbn [trace pickle_dump save_model]. rewrite !updates_app.
        cbn [updates]. lia.
      * exact Hstep.
      * rewrite Hstep. lia.
    + apply Z.eqb_neq in Hn. rewrite Hn in Hval.
      assert (Hb : body cfg val st
                   = Continue (retried vv (rolled_back cfg vv snap
                                 (logged vd vl (fetch_update st))))).
      { unfold body. by rewrite Hval. }
      eexists. split; [exact Hb |]. split; [| split].
      * intros fuel. cbn [loop]. rewrite Hb.
        by destruct (Z.ltb_spec (step st) ns); [| lia].
      * exact (proj1 (proj2 (retried_fields vv _))).
      * rewrite (proj1 (retried_fields vv _)). exact Hstep.
Qed.

(** ** Acceptance *)

Section Acceptance.

(** [a <= b] excludes [a > b]; this holds of floating-point numbers, where
    both comparisons are false on a NaN. *)
Hypothesis err_le_not_gt :
  forall a b : Err, err_le a b = true -> err_gt a b = false.

(** Claim C4.  On a validation trigger with adaptive rollback enabled and
    [current_error <= validation_error] (improvement or tie), the result is
    accepted: [validation_error := current_error],
    [validation_step := step], [num_retries := 0], the session is saved as
    the [validated] checkpoint, and the iteration goes on to the checkpoint
    trigger with no rewind of the dispenser, no restore and no halving;
    training continues when [check_freq] is not zero. *)
Theorem C4_accept_on_improvement_or_tie cfg val st vd vl vv :
  valid_adapt cfg = "True" ->
  validation_due cfg val st vd vl ->
  vvars st = Some vv ->
  err_le (current_error vd vl st) (validation_error vv) = true ->
  let st1 := fetch_update st in
  let st3 := accepted cfg (current_error vd vl st) (logged vd vl st1) in
  validation cfg val st1 = Next st3
  /\ body cfg val st = checkpoint cfg st3
  /\ vvars st3 = Some {| validation_error := current_error vd vl st;
                         validation_step := step st + 1;
                         num_retries := 0 |}
  /\ step st3 = step st + 1
  /\ store st3 = <[validated_path cfg := sess st1]> (store st)
  /\ sess st3 = sess st1
  /\ disp st3 = disp st1
  /\ trace st3 = trace st ++ [GetBatch; Update; SetStep (step st + 1);
                              Evaluate; SaveTrainer (validated_path cfg)]
  /\ (check_freq cfg <> 0 ->
      exists st', body cfg val st = Next st'
                  /\ vvars st' = vvars st3
                  /\ step st' = step st + 1
                  /\ store st' !! validated_path cfg = Some (sess st1)
                  /\ disp st' = disp st1 /\ sess st' = sess st1).
Proof.
  intros Had Hdue Hvv Hle st1 st3.
  apply err_le_not_gt in Hle.
  pose proof (validation_accept _ _ _ _ _ _ Hdue Had Hvv Hle) as Hval.
  assert (Hbody : body cfg val st = checkpoint cfg st3).
  { unfold body. by rewrite Hval. }
  split; [done |]. split; [done |].
  subst st3 st1. repeat split.
  - by fields.
  - by fields.
  - by fields.
  - fields. by rewrite <- !app_assoc.
  - intros Hcf. rewrite Hbody, checkpoint_nonzero by done.
    eexists. split; [done |]. unfold checkpointed.
    destruct (_ =? 0); fields; repeat split; try done.
    + rewrite lookup_insert_ne by apply training_not_validated.
      by rewrite lookup_insert_eq.
    + by rewrite lookup_insert_eq.
Qed.

End Acceptance.


(** ** Step-tagged checkpoints *)

Lemma train_done cfg fuel (d : Disp) files st :
  train cfg fuel d files = Done st ->
  exists st0 st',
    setup cfg d files = inr st0
    /\ loop cfg (val_set cfg d) (total_steps cfg d) fuel st0 = Done st'
    /\ st = teardown cfg st'.
Proof.
  unfold train. destruct (setup cfg d files) as [[e s] | st0]; [discriminate |].
  destruct (loop _ _ _ _ _) as [st' | |] eqn:Hloop; try discriminate.
  intros [= <-]. eauto.
Qed.

(** Claim C6, as amended.  At the end of every training run a step-tagged
    checkpoint [training/step<N>] has been saved for every [N] that is a
    multiple of [check_freq], greater than [starting_step] and at most the
    final value of [step].  The checkpoint trigger saves exactly when
    [step mod check_freq == 0]. *)
Theorem C6_checkpoint_at_every_multiple cfg fuel (d : Disp) files st :
  train cfg fuel d files = Done st ->
  (forall n, starting_step cfg < n <= step st -> n mod check_freq cfg = 0 ->
     SaveTrainer (training_path cfg n) ∈ trace st
     /\ is_Some (store st !! training_path cfg n))
  /\ (forall st1, check_freq cfg <> 0 ->
        (step st1 mod check_freq cfg = 0 ->
         checkpoint cfg st1
         = Next (save_trainer (training_path cfg (step st1)) st1))
        /\ (step st1 mod check_freq cfg <> 0 -> checkpoint cfg st1 = Next st1)).
Proof.
  intros (st0 & st' & Hsetup & Hloop & ->)%train_done. split.
  - assert (Hinv : steps_ordered cfg st' /\ checkpoints_saved cfg st').
    { apply (loop_done_invariant cfg (val_set cfg d) (total_steps cfg d)
               (fun s => steps_ordered cfg s /\ checkpoints_saved cfg s)
               fuel st0 st' (checkpoints_saved_kept cfg _ _)); [| exact Hloop].
      split; [by eapply setup_steps_ordered |].
      intros n Hn. rewrite (setup_step _ _ _ _ Hsetup) in Hn. lia. }
    destruct Hinv as [_ Hck]. intros n Hn Hmod. fields.
    destruct (Hck n Hn Hmod) as [Hin Hst].
    rewrite !elem_of_app, !lookup_insert_is_Some'. auto.
  - intros st1 Hcf. rewrite checkpoint_nonzero by done. unfold checkpointed.
    split; intros Hmod.
    + by rewrite Hmod.
    + by destruct (Z.eqb_spec (step st1 mod check_freq cfg) 0).
Qed.

(** ** The cursor after a rollback *)

Lemma setup_cursor cfg (d : Disp) files st0 :
  setup cfg d files = inr st0 -> cursor_follows_step cfg (disp st0) st0.
Proof.
  intros Hsetup. unfold cursor_follows_step.
  rewrite (setup_step _ _ _ _ Hsetup).
  by replace (Z.to_nat (starting_step cfg - starting_step cfg)) with O by lia.
Qed.

(** The step at which the last validation was accepted was the value of
    [step] in a state at the loop condition. *)
Lemma validation_point_reached cfg (d : Disp) files st0 st vv :
  setup cfg d files = inr st0 ->
  reachable cfg (val_set cfg d) (total_steps cfg d) st0 st ->
  vvars st = Some vv ->
  exists st_v, reachable cfg (val_set cfg d) (total_steps cfg d) st0 st_v
               /\ step st_v = validation_step vv.
Proof.
  intros Hsetup Hreach. revert vv.
  induction Hreach as [| st st' Hreach IH Hlt Hb]; intros vv Hvv.
  - exists st0. split; [constructor |].
    pose proof (setup_vvars _ _ _ _ Hsetup) as Hv.
    destruct (val_set cfg d).
    + destruct Hv as (verr & Hv & _). rewrite Hv in Hvv. injection Hvv as <-.
      cbn. by eapply setup_step.
    + destruct Hv as (Hv & _). congruence.
  - assert (Hnext : reachable cfg (val_set cfg d) (total_steps cfg d) st0 st')
      by (eapply reach_next; eauto).
    assert (Hcases : vvars st' = vvars st
                     \/ step st' = validation_step vv
                     \/ exists w, vvars st = Some w
                                  /\ validation_step w = validation_step vv).
    { revert Hb Hvv. clear IH Hnext Hreach.
      body_paths cfg (val_set cfg d) st;
        intros [Hb | Hb]; try discriminate; injection Hb as <-; fields;
        intros Hvv; auto; try (injection Hvv as <-; cbn; auto).
      all: right; right; eauto. }
    destruct Hcases as [E | [E | (w & Hw & E)]].
    + apply IH. congruence.
    + eauto.
    + destruct (IH _ Hw) as (st_v & Hr & Hs). exists st_v. split; [done | lia].
Qed.

Section RollbackCursor.

(** [return_batch] undoes [get_batch] on the cursor. *)
Hypothesis return_get :
  forall d : Disp, return_batch (snd (get_batch d)) = d.

(** Claim C7.  When [return_batch] is a left inverse of [get_batch] on the
    cursor, after every rollback the dispenser is where it was at
    [validation_step]: rewinding [step - validation_step] batches undoes
    the [get_batch] calls made since the last accepted validation, and the
    cursor equals the one of every state in which the loop condition was
    tested with [step = validation_step]; there is such a state. *)
Theorem C7_rollback_restores_cursor cfg (d : Disp) files st0 st vd vl vv :
  setup cfg d files = inr st0 ->
  reachable cfg (val_set cfg d) (total_steps cfg d) st0 st ->
  step st < total_steps cfg d ->
  valid_adapt cfg = "True" ->
  validation_due cfg (val_set cfg d) st vd vl ->
  vvars st = Some vv ->
  err_gt (current_error vd vl st) (validation_error vv) = true ->
  exists st',
    (body cfg (val_set cfg d) st = Break st'
     \/ body cfg (val_set cfg d) st = Continue st')
    /\ disp st' = Nat.iter (Z.to_nat (step st + 1 - validation_step vv))
                    return_batch (snd (get_batch (disp st)))
    /\ snd (get_batch (disp st))
       = Nat.iter (Z.to_nat (step st + 1 - validation_step vv))
           (fun c => snd (get_batch c)) (disp st')
    /\ (forall st_v,
          reachable cfg (val_set cfg d) (total_steps cfg d) st0 st_v ->
          step st_v = validation_step vv -> disp st' = disp st_v)
    /\ (exists st_v,
          reachable cfg (val_set cfg d) (total_steps cfg d) st0 st_v
          /\ step st_v = validation_step vv).
Proof.
  intros Hsetup Hreach Hlt Had Hdue Hvv Hgt.
  destruct (rollback_outcome _ _ _ _ _ _ _ _ Hsetup Hreach Had Hdue Hvv Hgt)
    as (snap & st' & Hsnap & Hb & _ & Hdisp & _ & _ & Hstep).
  pose (P := fun s : TrainState =>
               steps_ordered cfg s /\ cursor_follows_step cfg (disp st0) s).
  assert (Hkeeps : body_keeps cfg (val_set cfg d) (total_steps cfg d) P)
    by apply (cursor_follows_step_kept return_get).
  assert (H0 : P st0)
    by (split; [by eapply setup_steps_ordered | by eapply setup_cursor]).
  assert (Hst : P st) by (by eapply reachable_invariant).
  assert (Hst' : P st').
  { specialize (Hkeeps st Hst Hlt). by destruct Hb as [Hb | Hb]; rewrite Hb in Hkeeps. }
  destruct Hst as [[_ Hord] Hcur], Hst' as [_ Hcur'].
  specialize (Hord _ Hvv). unfold cursor_follows_step in *.
  exists st'. split; [done |]. split; [done |]. split; [| split].
  - set (next := fun c : Disp => snd (get_batch c)) in *.
    change (snd (get_batch (disp st))) with (next (disp st)).
    rewrite Hcur', Hstep, Hcur, <- Nat.iter_add, <- Nat.iter_succ.
    f_equal. lia.
  - intros st_v Hrv Hsv.
    assert (Hv : P st_v) by (by eapply reachable_invariant).
    destruct Hv as [_ Hv]. unfold cursor_follows_step in Hv.
    by rewrite Hcur', Hv, Hstep, Hsv.
  - by eapply validation_point_reached.
Qed.

End RollbackCursor.


(** ** The range of [step] *)

(** What one iteration does to [step]: one update and one increment, then
    possibly the reset of a rollback. *)
Lemma body_step_change cfg val st :
  let st' := flow_state (body cfg val st) in
  updates (trace st') = S (updates (trace st))
  /\ ((step st' = step st + 1
       /\ step_values (trace st') = step_values (trace st) ++ [step st + 1]
       /\ forall s, body cfg val st <> Break s /\ body cfg val st <> Continue s)
      \/ (exists vv,
            vvars st = Some vv
            /\ (body cfg val st = Break st' \/ body cfg val st = Continue st')
            /\ step st' = validation_step vv
            /\ step_values (trace st')
               = step_values (trace st) ++ [step st + 1; validation_step vv])).
Proof.
  body_paths cfg val st; fields;
    rewrite ?updates_app, ?step_values_app, ?updates_repeat,
      ?step_values_repeat by done;
    cbn [updates step_values app]; rewrite ?app_nil_r.
  all: split; [lia |].
  all: try (left; repeat split; done).
  all: right; exists vv'; split; [exact Hvv' |].
  - split; [left; reflexivity |]. split; [reflexivity |].
    by rewrite <- app_assoc.
  - split; [right; reflexivity |]. split; [reflexivity |].
    by rewrite <- app_assoc.
Qed.

(** Claim C8, as amended.  In every run with
    [0 <= starting_step <= num_steps], where
    [num_steps = batches_per_epoch * num_epochs], every value [step] takes
    lies in [0 .. num_steps]: [step] starts at [starting_step], each
    iteration makes exactly one update and increases [step] by one, and
    [step] is otherwise only reset to [validation_step], by a rollback. *)
Theorem C8_step_within_bounds cfg (d : Disp) files st0 :
  0 <= starting_step cfg <= total_steps cfg d ->
  setup cfg d files = inr st0 ->
  let val := val_set cfg d in
  let ns := total_steps cfg d in
  ns = num_batches (split (snd (fst (validation_set cfg d)))) * num_epochs cfg
  /\ step st0 = starting_step cfg
  /\ step_values (trace st0) = [starting_step cfg]
  /\ (forall fuel,
        let st := result_state (loop cfg val ns fuel st0) in
        0 <= step st <= ns
        /\ Forall (fun n => 0 <= n <= ns) (step_values (trace st)))
  /\ (forall fuel,
        let st := result_state (train cfg fuel d files) in
        0 <= step st <= ns
        /\ Forall (fun n => 0 <= n <= ns) (step_values (trace st)))
  /\ (forall st,
        let st' := flow_state (body cfg val st) in
        updates (trace st') = S (updates (trace st))
        /\ ((step st' = step st + 1
             /\ step_values (trace st') = step_values (trace st) ++ [step st + 1]
             /\ forall s, body cfg val st <> Break s
                          /\ body cfg val st <> Continue s)
            \/ (exists vv,
                  vvars st = Some vv
                  /\ (body cfg val st = Break st'
                      \/ body cfg val st = Continue st')
                  /\ step st' = validation_step vv
                  /\ step_values (trace st')
                     = step_values (trace st)
                       ++ [step st + 1; validation_step vv]))).
Proof.
  intros Hs Hsetup val ns.
  pose proof (setup_step _ _ _ _ Hsetup) as Hstep0.
  pose proof (setup_step_values _ _ _ _ Hsetup) as Hvals0.
  assert (Hloop : forall fuel,
             let st := result_state (loop cfg val ns fuel st0) in
             0 <= step st <= ns
             /\ Forall (fun n => 0 <= n <= ns) (step_values (trace st))).
  { intros fuel.
    pose proof (loop_invariant cfg val ns _ fuel st0
                  (steps_in_range_kept cfg val ns)) as Hinv.
    destruct Hinv as ([Hge _] & H0 & Hle & Hrange).
    - split; [by eapply setup_steps_ordered |]. split; [lia |].
      split; [fold ns; lia |]. unfold steps_in_range. rewrite Hvals0.
      constructor; [fold ns; lia | constructor].
    - cbv zeta. split; [lia | exact Hrange]. }
  split; [reflexivity |]. split; [done |]. split; [done |].
  split; [exact Hloop |]. split.
  - intros fuel. rewrite (train_result _ _ _ _ _ Hsetup). fold val ns.
    specialize (Hloop fuel).
    destruct (loop cfg val ns fuel st0) as [st' | e st' | st']; try exact Hloop.
    cbn in *. destruct Hloop as [Hb Hr]. split; [done |].
    rewrite !step_values_app. cbn. by rewrite !app_nil_r.
  - intros st. apply body_step_change.
Qed.


(** ** Runs without a validation set *)

Lemma body_without_validation cfg st :
  valid_frequency cfg <> 0 -> check_freq cfg <> 0 ->
  body cfg None st = Next (checkpointed cfg (fetch_update st)).
Proof.
  intros Hvf Hcf. unfold body.
  validation_paths cfg (@None (list Mat * list Lab)) (fetch_update st);
    try done.
  by apply checkpoint_nonzero.
Qed.

Lemma loop_without_validation cfg ns :
  valid_frequency cfg <> 0 -> check_freq cfg <> 0 ->
  forall fuel st,
    step st <= ns -> (Z.to_nat (ns - step st) <= fuel)%nat ->
    exists st' evs,
      loop cfg None ns fuel st = Done st'
      /\ step st' = ns
      /\ trace st' = trace st ++ evs
      /\ Forall (plain_event cfg) evs
      /\ updates evs = Z.to_nat (ns - step st)
      /\ length (loss_lst st') = (length (loss_lst st) + Z.to_nat (ns - step st))%nat
      /\ vvars st' = vvars st
      /\ val_loss_lst st' = val_loss_lst st
      /\ val_error_list st' = val_error_list st
      /\ plot st' = plot st
      /\ store st' !! validated_path cfg = store st !! validated_path cfg.
Proof.
  intros Hvf Hcf fuel.
  induction fuel as [| fuel IH]; intros st Hle Hfuel.
  - assert (step st = ns) by lia. exists st, [].
    cbn. destruct (Z.ltb_spec (step st) ns); [lia |].
    rewrite app_nil_r. replace (Z.to_nat (ns - step st)) with O by lia.
    repeat split; auto.
  - cbn [loop]. destruct (Z.ltb_spec (step st) ns) as [Hlt | Hge].
    2: { exists st, []. rewrite app_nil_r.
         replace (Z.to_nat (ns - step st)) with O by lia.
         repeat split; auto; lia. }
    rewrite body_without_validation by done.
    set (st1 := checkpointed cfg (fetch_update st)).
    assert (Hstep1 : step st1 = step st + 1).
    { subst st1. unfold checkpointed. by destruct (_ =? 0); fields. }
    destruct (IH st1) as (st' & evs & Hloop & Hstep & Htrace & Hplain & Hupd
                          & Hlen & Hvars & Hvl & Hve & Hplot & Hstore);
      [lia | lia |].
    assert (Hfields : exists evs1,
               trace st1 = trace st ++ evs1 /\ Forall (plain_event cfg) evs1
               /\ updates evs1 = 1%nat
               /\ length (loss_lst st1) = S (length (loss_lst st))
               /\ vvars st1 = vvars st
               /\ val_loss_lst st1 = val_loss_lst st
               /\ val_error_list st1 = val_error_list st
               /\ plot st1 = plot st
               /\ store st1 !! validated_path cfg
                  = store st !! validated_path cfg).
    { subst st1. unfold checkpointed.
      assert (Hl : length (loss_lst (fetch_update st)) = S (length (loss_lst st))).
      { unfold fetch_update. destruct (get_batch (disp st)) as [[bd bl] c]. cbn.
        destruct (update (sess st) bd bl) as [[l r] s]. cbn.
        rewrite length_app. cbn. lia. }
      destruct (_ =? 0); fields; eexists; rewrite <- ?app_assoc;
        (split; [reflexivity |]).
      - repeat split; auto.
        + repeat constructor. by eexists.
        + by rewrite lookup_insert_ne by apply training_not_validated.
      - repeat split; auto. repeat constructor. }
    destruct Hfields as (evs1 & Ht1 & Hp1 & Hu1 & Hl1 & Hv1 & Hvl1 & Hve1
                         & Hpl1 & Hs1).
    exists st', (evs1 ++ evs). split; [exact Hloop |].
    rewrite Htrace, Ht1, <- app_assoc, updates_app, Hu1, Hupd, Hlen, Hl1, Hstep1.
    repeat split; try congruence; try lia.
    by apply Forall_app.
Qed.

Lemma plain_event_not_rollback cfg e :
  plain_event cfg e ->
  e <> SaveTrainer (validated_path cfg)
  /\ e <> RestoreTrainer (validated_path cfg)
  /\ e <> HalveLearningRate /\ e <> ReturnBatch /\ e <> Evaluate.
Proof.
  destruct e; cbn; try done. intros [n ->]. repeat split; try done.
  intros [= E]. by apply training_not_validated in E.
Qed.

(** Claim C9, as amended.  When validation is disabled
    ([valid_batches <= 0]), [starting_step <= num_steps], and the run does
    not fail ([valid_frequency] and [check_freq] are not zero and the
    checkpoint of a positive [starting_step] exists), [train] makes exactly
    [num_steps - starting_step] updates and ends with [step = num_steps];
    no batch is returned, no [validated] checkpoint is restored or written,
    the learning rate is never halved, the model is never evaluated, and the
    validation-loss and validation-error logs written at the end are empty,
    whatever [valid_adapt] and [valid_retries] are. *)
Theorem C9_run_without_validation cfg (d : Disp) files fuel :
  valid_batches cfg <= 0 ->
  starting_step cfg <= total_steps cfg d ->
  valid_frequency cfg <> 0 ->
  check_freq cfg <> 0 ->
  (0 < starting_step cfg ->
   is_Some (files !! training_path cfg (starting_step cfg))) ->
  (Z.to_nat (total_steps cfg d - starting_step cfg) <= fuel)%nat ->
  exists st losses,
    train cfg fuel d files = Done st
    /\ step st = total_steps cfg d
    /\ updates (trace st) = Z.to_nat (total_steps cfg d - starting_step cfg)
    /\ (ReturnBatch ∉ trace st)
    /\ (RestoreTrainer (validated_path cfg) ∉ trace st)
    /\ (HalveLearningRate ∉ trace st)
    /\ (Evaluate ∉ trace st)
    /\ (SaveTrainer (validated_path cfg) ∉ trace st)
    /\ store st !! validated_path cfg = files !! validated_path cfg
    /\ plot st = Some (losses, [], [])
    /\ length losses = Z.to_nat (total_steps cfg d - starting_step cfg).
Proof.
  intros Hvb Hle Hvf Hcf Hfiles Hfuel.
  apply (val_set_None cfg d) in Hvb.
  destruct (initial_state_fields cfg d files)
    as (Hs0 & Hv0 & Hl0 & Hvl0 & Hve0 & Hst0 & Hp0 & _ & Hu0 & Hev0).
  assert (Hres : exists st0,
             resume cfg (initial_state cfg d files) = inr st0).
  { unfold resume, restore_trainer. rewrite Hs0, Hst0.
    destruct (Z.ltb_spec 0 (starting_step cfg)) as [Hpos | Hneg]; [| eauto].
    destruct (Hfiles Hpos) as [s ->]. eauto. }
  destruct Hres as [st0 Hres].
  assert (Hsetup : setup cfg d files = inr st0).
  { unfold setup. by rewrite Hres, Hvb. }
  destruct (resume_fields _ _ _ Hres)
    as (Hs & Hv & Hl & Hvl & Hve & Hst & Hp & _ & Ht).
  rewrite Hs0 in Hs, Ht.
  destruct (loop_without_validation cfg (total_steps cfg d) Hvf Hcf fuel st0)
    as (st' & evs & Hloop & Hstep & Htrace & Hplain & Hupd & Hlen & _ & Hvl'
        & Hve' & _ & Hstore); [lia | rewrite Hs; lia |].
  rewrite Hs in Hupd, Hlen.
  assert (Hev : Forall (fun e => e <> SaveTrainer (validated_path cfg)
                                 /\ e <> RestoreTrainer (validated_path cfg)
                                 /\ e <> HalveLearningRate /\ e <> ReturnBatch
                                 /\ e <> Evaluate) (trace (teardown cfg st'))).
  { unfold teardown. cbn. rewrite Htrace, !Forall_app. repeat split.
    - destruct Ht as [-> | ->]; [done |]. apply Forall_app. split; [done |].
      repeat constructor; try done.
      intros [= E]. by apply training_not_validated in E.
    - eapply Forall_impl; [exact Hplain |]. apply plain_event_not_rollback.
    - repeat constructor; done.
    - repeat constructor; done. }
  rewrite Forall_forall in Hev.
  exists (teardown cfg st'), (loss_lst st').
  rewrite (train_result _ _ _ _ _ Hsetup), Hvb, Hloop.
  split; [done |]. split; [done |]. split.
  { unfold teardown. cbn. rewrite Htrace, !updates_app, Hupd. cbn.
    destruct Ht as [-> | ->]; rewrite ?updates_app, Hu0; cbn; lia. }
  repeat split.
  - intros Hin. by destruct (Hev _ Hin) as (_ & _ & _ & ? & _).
  - intros Hin. by destruct (Hev _ Hin) as (_ & ? & _).
  - intros Hin. by destruct (Hev _ Hin) as (_ & _ & ? & _).
  - intros Hin. by destruct (Hev _ Hin) as (_ & _ & _ & _ & ?).
  - intros Hin. by destruct (Hev _ Hin) as (? & _).
  - unfold teardown. cbn. rewrite lookup_insert_ne.
    + rewrite Hstore, Hst. by rewrite Hst0.
    + unfold final_path, validated_path. intros E.
      apply append_cancel_l in E. discriminate E.
  - unfold teardown. cbn. by rewrite Hvl', Hve', Hvl, Hve, Hvl0, Hve0.
  - rewrite Hlen, Hl, Hl0. cbn. lia.
Qed.


(** ** Termination *)

Lemma run_invariant_kept cfg val ns :
  0 <= valid_retries cfg ->
  body_preserves cfg val ns (run_invariant cfg ns).
Proof.
  intros Hr st (Hord & Hret & Hle) Hlt.
  split; [by apply (steps_ordered_kept cfg val ns) |].
  split; [by apply (retries_bounded_kept cfg val ns) |].
  destruct Hord as [_ Hv].
  body_paths cfg val st; fields; use_vvars Hv; lia.
Qed.

(** The arithmetic of the budget: [x] counts validation steps and retries,
    [k] bounds the steps of one attempt, [b] are the steps left. *)
Lemma budget_arith (x x' k b b' : Z) :
  0 <= x' -> x' + 1 <= x -> 0 <= b' -> b' + 1 <= k -> 0 <= b ->
  0 <= x' * k + b' < x * k + b.
Proof.
  intros Hx' Hx Hb' Hk Hb.
  assert (0 <= x' * k) by (apply Z.mul_nonneg_nonneg; lia).
  assert ((x' + 1) * k <= x * k) by (apply Z.mul_le_mono_nonneg_r; lia).
  lia.
Qed.

Lemma budget_level (a r n : Z) :
  0 <= a -> 0 <= n <= r -> 0 <= a * (r + 1) + (r - n).
Proof.
  intros Ha Hn. assert (0 <= a * (r + 1)) by (apply Z.mul_nonneg_nonneg; lia).
  lia.
Qed.

(** Every iteration that goes on to the next one uses up budget. *)
Lemma budget_decreases cfg val ns st st' :
  run_invariant cfg ns st -> step st < ns ->
  body cfg val st = Next st' \/ body cfg val st = Continue st' ->
  0 <= budget cfg ns st' < budget cfg ns st.
Proof.
  intros ([Hs Hv] & Hret & Hle) Hlt. unfold budget, retries_bounded in *.
  body_paths cfg val st; intros [Hb | Hb]; try discriminate Hb;
    injection Hb as <-; fields.
  all: first
         [ specialize (Hv _ Hvv'); specialize (Hret _ Hvv'); rewrite ?Hvv'
         | destruct (vvars st) as [w |] eqn:Hw;
           [specialize (Hv _ eq_refl); specialize (Hret _ eq_refl) |] ].
  all: cbn [validation_step num_retries validation_error].
  all: try lia.
  all: try (pose proof (budget_level (ns - validation_step w)
                          (valid_retries cfg) (num_retries w));
            assert (0 <= (ns - validation_step w) * (valid_retries cfg + 1)
                         + (valid_retries cfg - num_retries w)) by lia;
            assert (0 <= ((ns - validation_step w) * (valid_retries cfg + 1)
                          + (valid_retries cfg - num_retries w))
                         * (ns - starting_step cfg + 1))
              by (apply Z.mul_nonneg_nonneg; lia);
            lia).
  all: apply budget_arith; try lia.
  all: try (apply budget_level; lia).
  all: assert (0 <= (ns - validation_step vv') * (valid_retries cfg + 1))
         by (apply Z.mul_nonneg_nonneg; lia).
  all: assert ((ns - (step st + 1)) * (valid_retries cfg + 1)
               <= (ns - validation_step vv' - 1) * (valid_retries cfg + 1))
         by (apply Z.mul_le_mono_nonneg_r; lia).
  all: lia.
Qed.

Lemma budget_positive cfg ns st :
  run_invariant cfg ns st -> step st < ns -> 0 < budget cfg ns st.
Proof.
  intros ([Hs Hv] & Hret & Hle) Hlt. unfold budget, retries_bounded in *.
  destruct (vvars st) as [w |]; [| lia].
  specialize (Hv _ eq_refl). specialize (Hret _ eq_refl).
  pose proof (budget_level (ns - validation_step w) (valid_retries cfg)
                (num_retries w)).
  assert (0 <= ((ns - validation_step w) * (valid_retries cfg + 1)
                + (valid_retries cfg - num_retries w))
               * (ns - starting_step cfg + 1))
    by (apply Z.mul_nonneg_nonneg; lia).
  lia.
Qed.

Lemma loop_terminates cfg val ns :
  0 <= valid_retries cfg ->
  forall fuel st,
    run_invariant cfg ns st ->
    budget cfg ns st <= Z.of_nat fuel ->
    forall st', loop cfg val ns fuel st <> OutOfFuel st'.
Proof.
  intros Hr fuel. induction fuel as [| fuel IH]; intros st Hinv Hb st'.
  - cbn [loop]. destruct (Z.ltb_spec (step st) ns) as [Hlt | Hge]; [| done].
    pose proof (budget_positive _ _ _ Hinv Hlt). lia.
  - cbn [loop]. destruct (Z.ltb_spec (step st) ns) as [Hlt | Hge]; [| done].
    pose proof (run_invariant_kept cfg val ns Hr st Hinv Hlt) as Hinv'.
    pose proof (budget_decreases cfg val ns st) as Hdec.
    destruct (body cfg val st) as [s | s | s | e s]; try done.
    + apply IH; [exact Hinv' |].
      specialize (Hdec s Hinv Hlt (or_introl eq_refl)). lia.
    + apply IH; [exact Hinv' |].
      specialize (Hdec s Hinv Hlt (or_intror eq_refl)). lia.
Qed.

Lemma setup_budget cfg (d : Disp) files st0 :
  0 <= valid_retries cfg ->
  setup cfg d files = inr st0 ->
  starting_step cfg <= total_steps cfg d ->
  budget cfg (total_steps cfg d) st0
  <= Z.of_nat (iteration_bound cfg (total_steps cfg d)).
Proof.
  intros Hr Hsetup Hle. unfold budget, iteration_bound.
  pose proof (setup_step _ _ _ _ Hsetup) as Hs.
  pose proof (setup_vvars _ _ _ _ Hsetup) as Hv.
  destruct (val_set cfg d).
  - destruct Hv as (verr & -> & _). cbn [validation_step num_retries].
    rewrite Hs.
    assert (0 <= ((total_steps cfg d - starting_step cfg)
                  * (valid_retries cfg + 1) + valid_retries cfg)
                 * (total_steps cfg d - starting_step cfg + 1))
      by (apply Z.mul_nonneg_nonneg; [apply Z.add_nonneg_nonneg |]; try lia;
          apply Z.mul_nonneg_nonneg; lia).
    lia.
  - destruct Hv as (-> & _). rewrite Hs.
    assert (0 <= ((total_steps cfg d - starting_step cfg)
                  * (valid_retries cfg + 1) + valid_retries cfg)
                 * (total_steps cfg d - starting_step cfg + 1))
      by (apply Z.mul_nonneg_nonneg; [apply Z.add_nonneg_nonneg |]; try lia;
          apply Z.mul_nonneg_nonneg; lia).
    lia.
Qed.

(** X1.  With [valid_retries >= 0] training always ends: given
    [iteration_bound] iterations, [train] returns or raises; it is never
    still looping. *)
Theorem train_terminates cfg (d : Disp) files fuel :
  0 <= valid_retries cfg ->
  (iteration_bound cfg (total_steps cfg d) <= fuel)%nat ->
  forall st, train cfg fuel d files <> OutOfFuel st.
Proof.
  intros Hr Hfuel st. unfold train.
  destruct (setup cfg d files) as [[e s] | st0] eqn:Hsetup; [done |].
  assert (Hloop : forall s,
             loop cfg (val_set cfg d) (total_steps cfg d) fuel st0
             <> OutOfFuel s).
  { destruct (Z.le_gt_cases (starting_step cfg) (total_steps cfg d))
      as [Hle | Hgt].
    - apply loop_terminates; [done | |].
      + split; [by eapply setup_steps_ordered |].
        split; [by eapply setup_retries_bounded |].
        by rewrite (setup_step _ _ _ _ Hsetup).
      + pose proof (setup_budget _ _ _ _ Hr Hsetup Hle). lia.
    - intros s. destruct fuel as [| fuel']; cbn [loop];
        rewrite (setup_step _ _ _ _ Hsetup);
        by destruct (Z.ltb_spec (starting_step cfg) (total_steps cfg d));
          [lia |]. }
  destruct (loop cfg (val_set cfg d) (total_steps cfg d) fuel st0) as [s | e s | s];
    [done | done |].
  by destruct (Hloop s).
Qed.


(** ** How a run can fail *)



Lemma setup_failed cfg (d : Disp) files e st :
  setup cfg d files = inl (e, st) ->
  e = RestoreError (training_path cfg (starting_step cfg))
  /\ 0 < starting_step cfg
  /\ files !! training_path cfg (starting_step cfg) = None
  /\ st = initial_state cfg d files.
Proof.
  unfold setup, resume, restore_trainer.
  destruct (initial_state_fields cfg d files) as (Hs & _ & _ & _ & _ & Hst & _).
  rewrite Hs, Hst.
  destruct (Z.ltb_spec 0 (starting_step cfg)) as [Hpos | Hneg]; [| discriminate].
  destruct (files !! training_path cfg (starting_step cfg)) eqn:Hf;
    [discriminate |].
  intros [= <- <-]. auto.
Qed.




(** ** The shape of the trace *)

Lemma Forall_repeat {A} (P : A -> Prop) (x : A) n :
  P x -> Forall P (repeat x n).
Proof. intros Hx. induction n; cbn; constructor; auto. Qed.

Lemma initial_state_trace cfg (d : Disp) files :
  Forall (setup_event cfg) (trace (initial_state cfg d files)).
Proof.
  unfold initial_state. destruct (validation_set cfg d) as [[v d1] drawn].
  cbn [trace]. rewrite !Forall_app. repeat split.
  - by apply Forall_repeat.
  - repeat constructor.
  - by apply Forall_repeat.
  - destruct (String.eqb _ _); repeat constructor.
  - repeat constructor.
Qed.

Lemma initial_validation_trace cfg val st :
  trace (initial_validation cfg val st)
  = trace st ++ match val with
                | Some _ => [Evaluate; SaveTrainer (validated_path cfg)]
                | None => []
                end.
Proof.
  unfold initial_validation. destruct val as [[vd vl] |].
  - destruct (evaluate (sess st) vd vl). cbn [trace push_validation set_vvars
      save_trainer emit with_sess]. by rewrite <- app_assoc.
  - by rewrite app_nil_r.
Qed.

Lemma setup_trace cfg (d : Disp) files st0 :
  setup cfg d files = inr st0 -> Forall (setup_event cfg) (trace st0).
Proof.
  intros (st & Hres & ->)%setup_resumed.
  rewrite initial_validation_trace.
  destruct (resume_fields _ _ _ Hres) as (_ & _ & _ & _ & _ & _ & _ & _ & Ht).
  pose proof (initial_state_trace cfg d files) as Hinit.
  destruct (initial_state_fields cfg d files) as (Hs & _).
  apply Forall_app. split.
  - destruct Ht as [-> | ->]; [done |]. apply Forall_app. split; [done |].
    rewrite Hs. repeat constructor.
  - destruct (val_set cfg d); repeat constructor.
Qed.

Lemma body_trace cfg val st :
  exists evs, trace (flow_state (body cfg val st)) = trace st ++ evs
              /\ Forall (loop_event cfg) evs.
Proof.
  body_paths cfg val st; fields; rewrite <- ?app_assoc;
    eexists; (split; [reflexivity |]);
    rewrite ?Forall_app; repeat split;
    try (apply Forall_repeat; exact I);
    repeat match goal with |- Forall _ _ => constructor end;
    match goal with
    | |- loop_event _ (SaveTrainer (validated_path _)) => left; reflexivity
    | |- loop_event _ (SaveTrainer (training_path _ _)) =>
      right; eexists; reflexivity
    | |- loop_event _ (RestoreTrainer _) => reflexivity
    | |- _ => exact I
    end.
Qed.

Lemma loop_trace cfg val ns fuel st :
  exists evs,
    trace (result_state (loop cfg val ns fuel st)) = trace st ++ evs
    /\ Forall (loop_event cfg) evs.
Proof.
  revert st. induction fuel as [| fuel IH]; intros st; cbn [loop].
  - exists []. rewrite app_nil_r. by destruct (step st <? ns).
  - destruct (step st <? ns); [| exists []; by rewrite app_nil_r].
    destruct (body_trace cfg val st) as (evs1 & Ht1 & Hev1).
    destruct (body cfg val st) as [s | s | s | e s]; cbn [flow_state] in Ht1.
    + destruct (IH s) as (evs & Ht & Hev). exists (evs1 ++ evs).
      rewrite Ht, Ht1, <- app_assoc. split; [done | by apply Forall_app].
    + destruct (IH s) as (evs & Ht & Hev). exists (evs1 ++ evs).
      rewrite Ht, Ht1, <- app_assoc. split; [done | by apply Forall_app].
    + by exists evs1.
    + by exists evs1.
Qed.

(** X4.  The calls of every run of [train] come in three phases: the calls
    of the setup (drawing the validation set, split, skipping, resume,
    initial validation), then the calls of the loop (batches, updates,
    evaluations, rollbacks, checkpoints), then, only when the run ends
    normally, the save of the final model followed by the dump of the
    logs.  A run that fails or is cut short saves no final model. *)
Theorem train_trace_phases cfg (d : Disp) files fuel :
  exists pre mid post,
    trace (result_state (train cfg fuel d files)) = pre ++ mid ++ post
    /\ Forall (setup_event cfg) pre
    /\ Forall (loop_event cfg) mid
    /\ post = match train cfg fuel d files with
              | Done _ => [SaveModel (final_path cfg);
                           PickleDump (plot_path cfg)]
              | _ => []
              end.
Proof.
  unfold train.
  destruct (setup cfg d files) as [[e s] | st0] eqn:Hsetup.
  - destruct (setup_failed _ _ _ _ _ Hsetup) as (_ & _ & _ & ->).
    exists (trace (initial_state cfg d files)), [], [].
    cbn [result_state]. rewrite !app_nil_r.
    split; [done |]. split; [apply initial_state_trace |]. by split.
  - destruct (loop_trace cfg (val_set cfg d) (total_steps cfg d) fuel st0)
      as (mid & Ht & Hmid).
    pose proof (setup_trace _ _ _ _ Hsetup) as Hpre.
    destruct (loop cfg (val_set cfg d) (total_steps cfg d) fuel st0)
      as [s | e s | s]; cbn [result_state] in *.
    + exists (trace st0), mid, [SaveModel (final_path cfg);
                                 PickleDump (plot_path cfg)].
      unfold teardown. cbn [trace pickle_dump save_model].
      rewrite Ht, <- !app_assoc. by repeat split.
    + exists (trace st0), mid, []. rewrite app_nil_r. by repeat split.
    + exists (trace st0), mid, []. rewrite app_nil_r. by repeat split.
Qed.


(** ** Files written by a run *)

Lemma final_not_training cfg n : final_path cfg <> training_path cfg n.
Proof.
  unfold training_path, final_path. intros E.
  apply append_cancel_l in E. discriminate E.
Qed.

Lemma final_not_validated cfg : final_path cfg <> validated_path cfg.
Proof.
  unfold validated_path, final_path. intros E.
  apply append_cancel_l in E. discriminate E.
Qed.

(** The loop writes step-tagged and [validated] checkpoints only, and never
    dumps the logs. *)
Lemma body_store_frame cfg val ns path m pl :
  (forall n, path <> training_path cfg n) ->
  path <> validated_path cfg ->
  body_preserves cfg val ns
    (fun st => store st !! path = m /\ plot st = pl).
Proof.
  intros Htr Hvp st [Hst Hpl] _.
  body_paths cfg val st; fields;
    rewrite ?lookup_insert_ne by (first [apply not_eq_sym, Htr | congruence]);
    by split.
Qed.

Lemma setup_store_frame cfg (d : Disp) files st0 path :
  setup cfg d files = inr st0 ->
  path <> validated_path cfg ->
  store st0 !! path = files !! path /\ plot st0 = None.
Proof.
  intros (st & Hres & ->)%setup_resumed Hvp.
  destruct (resume_fields _ _ _ Hres) as (_ & _ & _ & _ & _ & Hst & Hpl & _).
  destruct (initial_state_fields cfg d files)
    as (_ & _ & _ & _ & _ & Hst0 & Hpl0 & _).
  destruct (initial_validation_fields cfg (val_set cfg d) st)
    as (_ & _ & Hpl' & _ & _ & _ & _ & Hval).
  rewrite Hpl', Hpl, Hpl0. split; [| done].
  destruct (val_set cfg d) as [[vd vl] |].
  - destruct Hval as [_ ->]. rewrite lookup_insert_ne by congruence.
    by rewrite Hst, Hst0.
  - by rewrite Hval, Hst, Hst0.
Qed.

Lemma loop_store_frame cfg (d : Disp) files st0 fuel path :
  setup cfg d files = inr st0 ->
  (forall n, path <> training_path cfg n) ->
  path <> validated_path cfg ->
  let st := result_state (loop cfg (val_set cfg d) (total_steps cfg d) fuel st0) in
  store st !! path = files !! path /\ plot st = None.
Proof.
  intros Hsetup Htr Hvp.
  apply (loop_invariant cfg (val_set cfg d) (total_steps cfg d)
           (fun st => store st !! path = files !! path /\ plot st = None)).
  - by apply body_store_frame.
  - by apply (setup_store_frame cfg d).
Qed.


(** X6.  The final model and the logs are written exactly when the run
    ends normally: then the final model is the session the loop ended with
    and the dump holds the three logs; a run that fails leaves the final
    model as it was and dumps nothing. *)
Theorem train_outputs cfg (d : Disp) files fuel :
  match train cfg fuel d files with
  | Done st =>
    store st !! final_path cfg = Some (sess st)
    /\ plot st = Some (loss_lst st, val_loss_lst st, val_error_list st)
  | Failed _ st | OutOfFuel st =>
    store st !! final_path cfg = files !! final_path cfg
    /\ plot st = None
  end.
Proof.
  unfold train.
  destruct (setup cfg d files) as [[e s] | st0] eqn:Hsetup.
  - destruct (setup_failed _ _ _ _ _ Hsetup) as (_ & _ & _ & ->).
    destruct (initial_state_fields cfg d files)
      as (_ & _ & _ & _ & _ & -> & -> & _). done.
  - pose proof (loop_store_frame cfg d files st0 fuel (final_path cfg) Hsetup
                  (final_not_training cfg) (final_not_validated cfg)) as Hfr.
    destruct (loop cfg (val_set cfg d) (total_steps cfg d) fuel st0)
      as [s | e s | s]; cbn [result_state] in Hfr; try exact Hfr.
    unfold teardown. cbn [store plot sess loss_lst val_loss_lst val_error_list
                          pickle_dump save_model].
    by rewrite lookup_insert_eq.
Qed.

(** X7.  When the loop ends before [num_steps], it ended on a rollback at
    the retry limit: [num_retries = valid_retries],
    [step = validation_step], and the final model is the [validated]
    checkpoint, which holds a previously validated session with its
    learning rate halved. *)
Theorem early_stop_keeps_validated_model cfg (d : Disp) files fuel st :
  train cfg fuel d files = Done st ->
  step st < total_steps cfg d ->
  exists vv snap,
    vvars st = Some vv
    /\ num_retries vv = valid_retries cfg
    /\ step st = validation_step vv
    /\ sess st = halve_learning_rate snap
    /\ store st !! final_path cfg = Some (halve_learning_rate snap)
    /\ store st !! validated_path cfg = Some (halve_learning_rate snap).
Proof.
  intros (st0 & st' & Hsetup & Hloop & ->)%train_done Hlt.
  unfold teardown in *.
  cbn [step vvars sess store pickle_dump save_model] in *.
  destruct (loop_done_reachable _ _ _ _ _ _ _ (reach_start _ _ _ _) Hloop)
    as [[_ Hge] | (st1 & Hreach & Hlt1 & Hb)]; [lia |].
  revert Hb. clear Hloop Hlt.
  body_paths cfg (val_set cfg d) st1; intros Hb; try discriminate Hb;
    injection Hb as <-.
  rewrite fetch_update_vvars in Hvv'. rewrite fetch_update_store in Hsnap'.
  exists vv', snap'. fields.
  rewrite (lookup_insert_ne _ (final_path cfg) (validated_path cfg))
    by apply final_not_validated.
  rewrite !lookup_insert_eq. by repeat split.
Qed.


(** ** Checkpoint paths *)

(** X8.  Checkpoints never overwrite one another: the step-tagged paths of
    different steps differ, and no step-tagged path is the path of the
    [validated] checkpoint, of the final model or of the dumped logs; these
    three differ from one another too. *)
Theorem checkpoint_paths_distinct cfg :
  (forall n m, training_path cfg n = training_path cfg m -> n = m)
  /\ (forall n, training_path cfg n <> validated_path cfg
               /\ training_path cfg n <> final_path cfg
               /\ training_path cfg n <> plot_path cfg)
  /\ validated_path cfg <> final_path cfg
  /\ validated_path cfg <> plot_path cfg
  /\ final_path cfg <> plot_path cfg.
Proof.
  unfold training_path, validated_path, final_path, plot_path.
  split; [| split; [| split; [| split]]].
  - intros n m E. apply append_cancel_l in E.
    apply (append_cancel_l "/training/step") in E. by apply py_str_inj.
  - intros n. repeat split; intros E; apply append_cancel_l in E;
      discriminate E.
  - intros E. apply append_cancel_l in E. discriminate E.
  - intros E. apply append_cancel_l in E. discriminate E.
  - intros E. apply append_cancel_l in E. discriminate E.
Qed.

(** ** Runs without adaptive rollback *)

Lemma body_without_adapt cfg val st :
  valid_adapt cfg <> "True" ->
  valid_frequency cfg <> 0 -> check_freq cfg <> 0 ->
  exists st' evs,
    body cfg val st = Next st'
    /\ step st' = step st + 1
    /\ vvars st' = vvars st
    /\ store st' !! validated_path cfg = store st !! validated_path cfg
    /\ trace st' = trace st ++ evs
    /\ updates evs = 1%nat
    /\ Forall (fun e => e <> ReturnBatch /\ e <> HalveLearningRate
                        /\ e <> RestoreTrainer (validated_path cfg)
                        /\ e <> SaveTrainer (validated_path cfg)) evs.
Proof.
  intros Had Hvf Hcf0.
  body_paths cfg val st; try done; eexists _, _; (split; [reflexivity |]);
    fields; rewrite <- ?app_assoc;
    rewrite ?lookup_insert_ne by apply training_not_validated;
    (split; [reflexivity |]); (split; [reflexivity |]);
    (split; [reflexivity |]); (split; [reflexivity |]);
    (split; [reflexivity |]);
    repeat match goal with |- Forall _ _ => constructor end;
    repeat split; try discriminate;
    intros [= E]; by apply training_not_validated in E.
Qed.

Lemma loop_without_adapt cfg val ns :
  valid_adapt cfg <> "True" ->
  valid_frequency cfg <> 0 -> check_freq cfg <> 0 ->
  forall fuel st,
    step st <= ns -> (Z.to_nat (ns - step st) <= fuel)%nat ->
    exists st' evs,
      loop cfg val ns fuel st = Done st'
      /\ step st' = ns
      /\ vvars st' = vvars st
      /\ store st' !! validated_path cfg = store st !! validated_path cfg
      /\ trace st' = trace st ++ evs
      /\ updates evs = Z.to_nat (ns - step st)
      /\ Forall (fun e => e <> ReturnBatch /\ e <> HalveLearningRate
                          /\ e <> RestoreTrainer (validated_path cfg)
                          /\ e <> SaveTrainer (validated_path cfg)) evs.
Proof.
  intros Had Hvf Hcf0 fuel.
  induction fuel as [| fuel IH]; intros st Hle Hfuel.
  - exists st, []. cbn [loop].
    destruct (Z.ltb_spec (step st) ns); [lia |].
    rewrite app_nil_r. replace (Z.to_nat (ns - step st)) with O by lia.
    repeat split; auto; lia.
  - cbn [loop]. destruct (Z.ltb_spec (step st) ns) as [Hlt | Hge].
    2: { exists st, []. rewrite app_nil_r.
         replace (Z.to_nat (ns - step st)) with O by lia.
         repeat split; auto; lia. }
    destruct (body_without_adapt cfg val st Had Hvf Hcf0)
      as (st1 & evs1 & -> & Hs1 & Hv1 & Hst1 & Ht1 & Hu1 & He1).
    destruct (IH st1) as (st' & evs & Hloop & Hs & Hv & Hst & Ht & Hu & He);
      [lia | lia |].
    exists st', (evs1 ++ evs). split; [exact Hloop |].
    rewrite Ht, Ht1, <- app_assoc, updates_app, Hu1, Hu, Hs1.
    repeat split; try congruence; try lia.
    by apply Forall_app.
Qed.

Lemma setup_event_not_rollback cfg e :
  setup_event cfg e ->
  e <> ReturnBatch /\ e <> HalveLearningRate
  /\ e <> RestoreTrainer (validated_path cfg).
Proof.
  destruct e; cbn; try done. intros ->. repeat split; try done.
  intros [= E]. by apply training_not_validated in E.
Qed.

(** X9.  Without adaptive rollback ([valid_adapt] not ['True']), with or
    without a validation set, a run that gets past the setup with
    [starting_step <= num_steps] and non-zero frequencies always reaches
    [step = num_steps] after exactly [num_steps - starting_step] updates:
    no batch is returned, nothing is restored from the [validated]
    checkpoint, the learning rate is never halved, and the validation
    variables and the [validated] checkpoint stay those of the initial
    validation. *)
Theorem run_without_adapt cfg (d : Disp) files st0 fuel :
  valid_adapt cfg <> "True" ->
  valid_frequency cfg <> 0 ->
  check_freq cfg <> 0 ->
  starting_step cfg <= total_steps cfg d ->
  setup cfg d files = inr st0 ->
  (Z.to_nat (total_steps cfg d - starting_step cfg) <= fuel)%nat ->
  exists st,
    train cfg fuel d files = Done st
    /\ step st = total_steps cfg d
    /\ updates (trace st) = Z.to_nat (total_steps cfg d - starting_step cfg)
    /\ vvars st = vvars st0
    /\ store st !! validated_path cfg = store st0 !! validated_path cfg
    /\ (ReturnBatch ∉ trace st)
    /\ (HalveLearningRate ∉ trace st)
    /\ (RestoreTrainer (validated_path cfg) ∉ trace st).
Proof.
  intros Had Hvf Hcf0 Hle Hsetup Hfuel.
  pose proof (setup_step _ _ _ _ Hsetup) as Hs0.
  destruct (loop_without_adapt cfg (val_set cfg d) (total_steps cfg d)
              Had Hvf Hcf0 fuel st0)
    as (st' & evs & Hloop & Hs & Hv & Hst & Ht & Hu & He);
    [lia | rewrite Hs0; lia |].
  exists (teardown cfg st').
  rewrite (train_result _ _ _ _ _ Hsetup), Hloop.
  assert (Hall : Forall (fun e => e <> ReturnBatch /\ e <> HalveLearningRate
                                  /\ e <> RestoreTrainer (validated_path cfg))
                   (trace (teardown cfg st'))).
  { unfold teardown. cbn [trace pickle_dump save_model].
    rewrite Ht, !Forall_app. repeat split.
    - eapply Forall_impl; [by eapply setup_trace |].
      apply setup_event_not_rollback.
    - eapply Forall_impl; [exact He |]. intros e (? & ? & ? & _). auto.
    - repeat constructor; done.
    - repeat constructor; done. }
  rewrite Forall_forall in Hall.
  split; [done |]. unfold teardown.
  cbn [step vvars store trace pickle_dump save_model].
  rewrite lookup_insert_ne by apply final_not_validated.
  split; [exact Hs |]. split.
  { rewrite Ht, !updates_app, Hu, (setup_updates _ _ _ _ Hsetup), Hs0.
    cbn [updates]. lia. }
  split; [exact Hv |]. split; [exact Hst |].
  repeat split; intros Hin.
  - by destruct (Hall _ Hin) as (? & _).
  - by destruct (Hall _ Hin) as (_ & ? & _).
  - by destruct (Hall _ Hin) as (_ & _ & ?).
Qed.


(** ** Batches fetched and returned *)

Lemma batch_balance_kept cfg val ns (c : Z) :
  body_keeps cfg val ns
    (fun st => steps_ordered cfg st
               /\ Z.of_nat (count is_get_batch (trace st))
                  - Z.of_nat (count is_return_batch (trace st))
                  = c + step st).
Proof.
  intros st [Hord Hbal] Hlt.
  pose proof (steps_ordered_kept cfg val ns st Hord Hlt) as Hord'.
  revert Hord'. destruct Hord as [Hs Hv].
  body_paths cfg val st; fields; try done.
  all: intros Hord'; split; [exact Hord' | clear Hord'].
  all: rewrite ?count_app, ?count_repeat; unfold py_range;
    cbn [count List.filter is_get_batch is_return_batch length].
  all: use_vvars Hv; lia.
Qed.

(** X10.  At every test of the loop condition, the batches fetched minus
    the batches returned since the loop was entered are [step] minus
    [starting_step]: each update consumes one batch and each rollback gives
    back as many batches as steps it undoes. *)
Theorem batch_balance cfg (d : Disp) files st0 st :
  setup cfg d files = inr st0 ->
  reachable cfg (val_set cfg d) (total_steps cfg d) st0 st ->
  Z.of_nat (count is_get_batch (trace st))
  - Z.of_nat (count is_return_batch (trace st))
  = Z.of_nat (count is_get_batch (trace st0))
    - Z.of_nat (count is_return_batch (trace st0))
    + (step st - starting_step cfg).
Proof.
  intros Hsetup Hreach.
  pose proof (setup_step _ _ _ _ Hsetup) as Hs0.
  pose (c := Z.of_nat (count is_get_batch (trace st0))
             - Z.of_nat (count is_return_batch (trace st0))
             - starting_step cfg).
  destruct (reachable_invariant cfg (val_set cfg d) (total_steps cfg d) _
              st0 st (batch_balance_kept cfg _ _ c)) as [_ Hbal];
    [| exact Hreach | subst c; lia].
  split; [by eapply setup_steps_ordered |]. subst c. lia.
Qed.

(** ** The logs *)

Lemma fetch_update_loss_lst st :
  exists l, loss_lst (fetch_update st) = loss_lst st ++ [(step st, l)].
Proof.
  unfold fetch_update. destruct (get_batch (disp st)) as [[bd bl] c]. cbn.
  destruct (update (sess st) bd bl) as [[l r] s]. cbn. eauto.
Qed.

Lemma logs_consistent_kept cfg val ns :
  body_preserves cfg val ns
    (fun st => steps_ordered cfg st /\ logs_consistent cfg ns st).
Proof.
  intros st [Hord Hlogs] Hlt.
  split; [by apply (steps_ordered_kept cfg val ns) |].
  destruct Hord as [Hs _].
  destruct Hlogs as (Hl & He & Hm & Hfl & Hfe). unfold logs_consistent.
  destruct (fetch_update_loss_lst st) as [l Hloss].
  body_paths cfg val st; fields;
    cbn [loss_lst set_step set_vvars push_validation push_loss with_disp
         with_sess emit save_trainer return_batches];
    rewrite Hloss;
    rewrite ?updates_app, ?count_app, ?updates_repeat, ?count_repeat,
      ?length_app, ?map_app, ?Forall_app by done;
    cbn [updates count List.filter is_evaluate length map fst];
    rewrite ?Hm;
    repeat split; try done; try lia;
    repeat match goal with |- Forall _ _ => constructor end;
    cbn [fst]; lia.
Qed.

Lemma setup_logs_consistent cfg (d : Disp) files st0 :
  setup cfg d files = inr st0 ->
  starting_step cfg <= total_steps cfg d ->
  logs_consistent cfg (total_steps cfg d) st0.
Proof.
  intros Hsetup Hle. pose proof Hsetup as (st & Hres & ->)%setup_resumed.
  destruct (resume_fields _ _ _ Hres)
    as (Hs & _ & Hl & Hvl & Hve & _ & _ & _ & Ht).
  destruct (initial_state_fields cfg d files)
    as (Hs0 & _ & Hl0 & Hvl0 & Hve0 & _ & _ & _ & Hu0 & Hev0).
  assert (Hc0 : count is_evaluate (trace st) = O).
  { apply count_zero.
    destruct Ht as [-> | ->]; rewrite ?Forall_app; repeat split;
      try (eapply Forall_impl; [exact Hev0 |];
           intros [] (_ & _ & _ & _ & ?); done).
    repeat constructor. }
  assert (Hu : updates (trace st) = O).
  { destruct Ht as [-> | ->]; [done |]. by rewrite updates_app, Hu0. }
  unfold logs_consistent, initial_validation.
  destruct (val_set cfg d) as [[vd vl] |].
  - destruct (evaluate (sess st) vd vl) as [verr vloss].
    cbn [loss_lst val_loss_lst val_error_list trace step push_validation
         set_vvars save_trainer emit with_sess].
    rewrite Hl, Hl0, Hvl, Hvl0, Hve, Hve0, !updates_app, !count_app, Hu, Hc0,
      Hs, Hs0.
    cbn. repeat split; try done. repeat constructor; cbn; lia.
  - rewrite Hl, Hl0, Hvl, Hvl0, Hve, Hve0, Hu, Hc0. by repeat split.
Qed.

(** X11.  In every run with [starting_step <= num_steps] that gets past
    the setup, whatever way it ends, the training-loss log has one record
    per update made, the validation logs have one record per evaluation
    made and carry the same steps, and the steps recorded lie between
    [starting_step] and [num_steps] (strictly below [num_steps] for the
    training loss).  Records of steps undone by a rollback stay in the
    logs. *)
Theorem logs_follow_the_trace cfg (d : Disp) files st0 fuel :
  setup cfg d files = inr st0 ->
  starting_step cfg <= total_steps cfg d ->
  let st := result_state (train cfg fuel d files) in
  length (loss_lst st) = updates (trace st)
  /\ length (val_error_list st) = count is_evaluate (trace st)
  /\ length (val_loss_lst st) = count is_evaluate (trace st)
  /\ map fst (val_loss_lst st) = map fst (val_error_list st)
  /\ Forall (fun r => starting_step cfg <= fst r < total_steps cfg d)
       (loss_lst st)
  /\ Forall (fun r => starting_step cfg <= fst r <= total_steps cfg d)
       (val_error_list st).
Proof.
  intros Hsetup Hle.
  pose proof (loop_invariant cfg (val_set cfg d) (total_steps cfg d) _ fuel st0
                (logs_consistent_kept cfg _ _)) as Hinv.
  destruct Hinv as [_ (Hl & He & Hm & Hfl & Hfe)].
  { split; [by eapply setup_steps_ordered |].
    by apply (setup_logs_consistent cfg d files). }
  rewrite (train_result _ _ _ _ _ Hsetup).
  assert (Hvl : forall s : TrainState,
             map fst (val_loss_lst s) = map fst (val_error_list s) ->
             length (val_loss_lst s) = length (val_error_list s)).
  { intros s E. by rewrite <- (length_map fst), E, length_map. }
  destruct (loop cfg (val_set cfg d) (total_steps cfg d) fuel st0)
    as [s | e s | s]; cbn [result_state] in *.
  - unfold teardown.
    cbn [loss_lst val_loss_lst val_error_list trace pickle_dump save_model].
    rewrite !updates_app, !count_app. cbn. rewrite !Nat.add_0_r.
    rewrite (Hvl s Hm). by repeat split.
  - rewrite (Hvl s Hm). by repeat split.
  - rewrite (Hvl s Hm). by repeat split.
Qed.


(** ** Resuming from a checkpoint *)

Lemma fetch_update_core st :
  (disp (fetch_update st), sess (fetch_update st))
  = fetch_and_update (disp st, sess st).
Proof.
  unfold fetch_update, fetch_and_update. cbn [fst snd].
  destruct (get_batch (disp st)) as [[bd bl] c]. cbn.
  destruct (update (sess st) bd bl) as [[l r] s]. reflexivity.
Qed.

Lemma advance_succ_r k (c : Disp * Sess) :
  advance (S k) c = advance k (fetch_and_update c).
Proof. unfold advance. apply Nat.iter_succ_r. Qed.

Lemma advance_add k1 k2 (c : Disp * Sess) :
  advance (k1 + k2) c = advance k1 (advance k2 c).
Proof. unfold advance. apply Nat.iter_add. Qed.

Lemma advance_disp k (d : Disp) (s : Sess) :
  fst (advance k (d, s)) = Nat.iter k (fun c => snd (get_batch c)) d.
Proof.
  unfold advance. induction k as [| k IH]; [reflexivity |].
  rewrite !Nat.iter_succ, <- IH. unfold fetch_and_update.
  by destruct (get_batch _) as [[bd bl] c].
Qed.

(** A run without validation follows [advance], and leaves at each
    multiple of [check_freq] it passes the session it had there. *)
Lemma loop_trajectory cfg ns :
  valid_frequency cfg <> 0 -> check_freq cfg <> 0 ->
  forall fuel st,
    step st <= ns -> (Z.to_nat (ns - step st) <= fuel)%nat ->
    exists st',
      loop cfg None ns fuel st = Done st'
      /\ step st' = ns
      /\ (disp st', sess st')
         = advance (Z.to_nat (ns - step st)) (disp st, sess st)
      /\ (forall n, step st < n <= ns -> n mod check_freq cfg = 0 ->
            store st' !! training_path cfg n
            = Some (snd (advance (Z.to_nat (n - step st)) (disp st, sess st))))
      /\ (forall path, (forall n, step st < n <= ns ->
                                  path <> training_path cfg n) ->
            store st' !! path = store st !! path).
Proof.
  intros Hvf Hcf0 fuel.
  induction fuel as [| fuel IH]; intros st Hle Hfuel.
  - exists st. cbn [loop]. destruct (Z.ltb_spec (step st) ns); [lia |].
    replace (Z.to_nat (ns - step st)) with O by lia.
    repeat split; auto; intros; lia.
  - cbn [loop]. destruct (Z.ltb_spec (step st) ns) as [Hlt | Hge].
    2: { exists st. replace (Z.to_nat (ns - step st)) with O by lia.
         repeat split; auto; intros; lia. }
    rewrite body_without_validation by done.
    set (st1 := checkpointed cfg (fetch_update st)).
    assert (H1 : step st1 = step st + 1
                 /\ (disp st1, sess st1) = fetch_and_update (disp st, sess st)
                 /\ (step st1 mod check_freq cfg = 0 ->
                     store st1 !! training_path cfg (step st1)
                     = Some (sess st1))
                 /\ (forall path, path <> training_path cfg (step st1) ->
                       store st1 !! path = store st !! path)).
    { subst st1. unfold checkpointed.
      destruct (Z.eqb_spec (step (fetch_update st) mod check_freq cfg) 0)
        as [Hd | Hd]; cbn [step disp sess store save_trainer];
        rewrite fetch_update_step, fetch_update_store, fetch_update_core.
      - repeat split; auto.
        + intros _. by rewrite lookup_insert_eq.
        + intros path Hp. by rewrite lookup_insert_ne.
      - repeat split; auto. intros Hm.
        rewrite fetch_update_step in Hd. done. }
    destruct H1 as (Hs1 & Hc1 & Hsave1 & Hframe1).
    destruct (IH st1) as (st' & Hloop & Hs & Hc & Hsave & Hframe);
      [lia | lia |].
    exists st'. split; [exact Hloop |]. split; [exact Hs |].
    assert (Hadv : forall n, step st < n ->
               advance (Z.to_nat (n - step st)) (disp st, sess st)
               = advance (Z.to_nat (n - step st1)) (disp st1, sess st1)).
    { intros n Hn.
      replace (Z.to_nat (n - step st)) with (S (Z.to_nat (n - step st1)))
        by lia.
      by rewrite advance_succ_r, Hc1. }
    split; [| split].
    + rewrite (Hadv ns) by lia. exact Hc.
    + intros n Hn Hmod. rewrite (Hadv n) by lia.
      destruct (Z.eq_dec n (step st1)) as [-> | Hne].
      * rewrite Hframe.
        -- rewrite Hsave1 by done.
           replace (Z.to_nat (step st1 - step st1)) with O by lia.
           reflexivity.
        -- intros m Hm E. apply append_cancel_l in E.
           apply (append_cancel_l "/training/step") in E.
           apply py_str_inj in E. lia.
      * apply Hsave; [lia | done].
    + intros path Hp. rewrite Hframe.
      * apply Hframe1. apply Hp. lia.
      * intros m Hm. apply Hp. lia.
Qed.


Lemma total_steps_with_starting_step cfg n (d : Disp) :
  total_steps (with_starting_step cfg n) d = total_steps cfg d.
Proof. reflexivity. Qed.

Lemma val_set_with_starting_step cfg n (d : Disp) :
  val_set (with_starting_step cfg n) d = val_set cfg d.
Proof. reflexivity. Qed.

(** The state in which a run without validation enters the loop: at
    [starting_step], the dispenser skipped that far, with the session
    restored from the checkpoint of a positive [starting_step]. *)
Lemma setup_without_validation cfg (d : Disp) files (s : Sess) :
  valid_batches cfg <= 0 ->
  (if 0 <? starting_step cfg
   then files !! training_path cfg (starting_step cfg) = Some s
   else s = initialize (total_steps cfg d)) ->
  exists st0,
    setup cfg d files = inr st0
    /\ step st0 = starting_step cfg
    /\ disp st0 = Nat.iter (Z.to_nat (starting_step cfg)) skip_batch (split d)
    /\ sess st0 = s
    /\ store st0 = files.
Proof.
  intros Hvb Hs.
  unfold setup, val_set, resume, restore_trainer, initial_state, total_steps,
    validation_set in *.
  destruct (Z.ltb_spec 0 (valid_batches cfg)) as [Hpos | _]; [lia |].
  cbn [fst snd step store initial_validation] in *.
  destruct (0 <? starting_step cfg).
  - rewrite Hs. eexists. split; [reflexivity |]. by repeat split.
  - subst s. eexists. split; [reflexivity |]. by repeat split.
Qed.

Lemma iter_ext {A} (f g : A -> A) k x :
  (forall y, f y = g y) -> Nat.iter k f x = Nat.iter k g x.
Proof.
  intros Hfg. induction k as [| k IH]; [reflexivity |].
  by rewrite !Nat.iter_succ, IH, Hfg.
Qed.

Section Resume.

(** [skip_batch] moves the cursor as [get_batch] does. *)
Hypothesis skip_is_get :
  forall d : Disp, skip_batch d = snd (get_batch d).

(** X14.  Checkpoint and resume round trip, for runs without validation:
    when [skip_batch] moves the cursor as [get_batch] does, a run resumed
    at a step [n] that is a positive multiple of [check_freq], on the files
    left by an uninterrupted run from step 0, ends with the same [step],
    the same dispenser cursor, the same session and the same final model
    as the uninterrupted run. *)
Theorem resume_matches_uninterrupted cfg (d : Disp) files n fuel :
  valid_batches cfg <= 0 ->
  starting_step cfg = 0 ->
  valid_frequency cfg <> 0 ->
  check_freq cfg <> 0 ->
  0 < n <= total_steps cfg d ->
  n mod check_freq cfg = 0 ->
  (Z.to_nat (total_steps cfg d) <= fuel)%nat ->
  exists st_full st_resumed,
    train cfg fuel d files = Done st_full
    /\ train (with_starting_step cfg n) fuel d (store st_full)
       = Done st_resumed
    /\ step st_resumed = step st_full
    /\ disp st_resumed = disp st_full
    /\ sess st_resumed = sess st_full
    /\ store st_resumed !! final_path cfg = store st_full !! final_path cfg.
Proof.
  intros Hvb Hs0 Hvf Hcf0 Hn Hmod Hfuel.
  set (ns := total_steps cfg d) in *.
  set (x0 := (split d, initialize ns)).
  (* the uninterrupted run *)
  destruct (setup_without_validation cfg d files (initialize ns) Hvb)
    as (stA0 & HsetupA & HstepA & HdispA & HsessA & _).
  { rewrite Hs0. reflexivity. }
  rewrite Hs0 in HstepA, HdispA.
  change (Nat.iter (Z.to_nat 0) skip_batch (split d)) with (split d) in HdispA.
  destruct (loop_trajectory cfg ns Hvf Hcf0 fuel stA0)
    as (stA & HloopA & HendA & HcoreA & HsaveA & _);
    [lia | rewrite HstepA; lia |].
  rewrite HstepA, HdispA, HsessA in HcoreA, HsaveA. fold x0 in HcoreA, HsaveA.
  rewrite Z.sub_0_r in HcoreA.
  specialize (HsaveA n ltac:(lia) Hmod). rewrite Z.sub_0_r in HsaveA.
  assert (HvalA : val_set cfg d = None) by (by apply val_set_None).
  assert (HtrainA : train cfg fuel d files = Done (teardown cfg stA)).
  { rewrite (train_result _ _ _ _ _ HsetupA), HvalA. fold ns.
    by rewrite HloopA. }
  (* the resumed run *)
  set (cfg' := with_starting_step cfg n).
  assert (HfilesB : store (teardown cfg stA) !! training_path cfg n
                    = Some (snd (advance (Z.to_nat n) x0))).
  { unfold teardown. cbn [store pickle_dump save_model].
    rewrite lookup_insert_ne by apply final_not_training. exact HsaveA. }
  destruct (setup_without_validation cfg' d (store (teardown cfg stA))
              (snd (advance (Z.to_nat n) x0)) Hvb)
    as (stB0 & HsetupB & HstepB & HdispB & HsessB & _).
  { cbn [starting_step cfg' with_starting_step].
    destruct (Z.ltb_spec 0 n); [exact HfilesB | lia]. }
  cbn [starting_step cfg' with_starting_step] in HstepB, HdispB.
  assert (HcoreB0 : (disp stB0, sess stB0) = advance (Z.to_nat n) x0).
  { rewrite (surjective_pairing (advance (Z.to_nat n) x0)).
    rewrite HsessB, HdispB. f_equal. unfold x0.
    rewrite advance_disp. by apply iter_ext. }
  destruct (loop_trajectory cfg' ns Hvf Hcf0 fuel stB0)
    as (stB & HloopB & HendB & HcoreB & _);
    [rewrite HstepB; lia | rewrite HstepB; lia |].
  rewrite HcoreB0, HstepB, <- advance_add in HcoreB.
  replace (Z.to_nat (ns - n) + Z.to_nat n)%nat with (Z.to_nat ns) in HcoreB
    by lia.
  assert (HtrainB : train cfg' fuel d (store (teardown cfg stA))
                    = Done (teardown cfg' stB)).
  { rewrite (train_result _ _ _ _ _ HsetupB).
    change (val_set cfg' d) with (val_set cfg d).
    change (total_steps cfg' d) with ns.
    by rewrite HvalA, HloopB. }
  exists (teardown cfg stA), (teardown cfg' stB).
  split; [exact HtrainA |]. split; [exact HtrainB |].
  rewrite <- HcoreA in HcoreB. injection HcoreB as Hd Hs.
  unfold teardown. cbn [step disp sess store pickle_dump save_model].
  change (final_path cfg') with (final_path cfg).
  rewrite !lookup_insert_eq, HendA, HendB, Hd, Hs. by repeat split.
Qed.

End Resume.


(** ** Retries *)

Lemma retries_nonnegative_kept cfg val ns :
  body_preserves cfg val ns
    (fun st => forall vv, vvars st = Some vv -> 0 <= num_retries vv).
Proof.
  intros st Hv _.
  body_paths cfg val st; fields; try done.
  all: try intros w Hw; try (injection Hw as <-; cbn).
  all: use_vvars Hv; lia.
Qed.

(** X15.  A negative [valid_retries] switches early stopping off: a run
    that ends normally then always ends at the loop condition, with
    [step >= num_steps], however many rollbacks it made. *)
Theorem negative_retries_never_stop_early cfg (d : Disp) files fuel st :
  valid_retries cfg < 0 ->
  train cfg fuel d files = Done st ->
  total_steps cfg d <= step st.
Proof.
  intros Hneg (st0 & st' & Hsetup & Hloop & ->)%train_done.
  unfold teardown. cbn [step pickle_dump save_model].
  destruct (loop_done_reachable _ _ _ _ _ _ _ (reach_start _ _ _ _) Hloop)
    as [[_ Hge] | (st1 & Hreach & Hlt1 & Hb)]; [exact Hge |].
  exfalso.
  assert (Hnn : forall vv, vvars st1 = Some vv -> 0 <= num_retries vv).
  { apply (reachable_invariant cfg (val_set cfg d) (total_steps cfg d)
             (fun s => forall vv, vvars s = Some vv -> 0 <= num_retries vv)
             st0 st1); [| | exact Hreach].
    - apply body_preserves_keeps, retries_nonnegative_kept.
    - intros vv Hvv. pose proof (setup_vvars _ _ _ _ Hsetup) as Hv.
      destruct (val_set cfg d).
      + destruct Hv as (verr & Hv & _). rewrite Hv in Hvv.
        injection Hvv as <-. cbn. lia.
      + destruct Hv as (Hv & _). congruence. }
  revert Hb. clear Hloop.
  body_paths cfg (val_set cfg d) st1; intros Hb; try discriminate Hb.
  rewrite fetch_update_vvars in Hvv'. specialize (Hnn _ Hvv'). lia.
Qed.

(** ** What the validated checkpoint holds *)

Lemma validated_holds_best_step cfg val st st' :
  validated_holds_best cfg val st ->
  body cfg val st = Next st' \/ body cfg val st = Continue st' ->
  validated_holds_best cfg val st'.
Proof.
  intros Hbest. unfold validated_holds_best in *.
  body_paths cfg val st; intros [Hb | Hb]; try discriminate Hb;
    injection Hb as <-; fields; intros vd vl vv Hval Hvv.
  all: rewrite ?(lookup_insert_ne _ (training_path cfg (step st + 1)))
         by apply training_not_validated.
  all: try (by apply Hbest).
  - injection Hvv as <-. cbn [num_retries validation_error].
    assert (vd' = vd /\ vl' = vl) as [-> ->] by (split; congruence).
    split; [lia |]. eexists. split; [reflexivity |].
    by rewrite lookup_insert_eq.
  - injection Hvv as <-. cbn [num_retries validation_error].
    assert (vd' = vd /\ vl' = vl) as [-> ->] by (split; congruence).
    split; [lia |]. eexists. split; [reflexivity |].
    by rewrite lookup_insert_eq.
  - injection Hvv as <-. cbn [num_retries validation_error].
    destruct (Hbest vd vl vv' Hval Hvv') as (Hnn & base & Hev & Hst).
    split; [lia |]. exists base. split; [exact Hev |].
    rewrite lookup_insert_eq. rewrite Hst in Hsnap'. injection Hsnap' as <-.
    replace (Z.to_nat (num_retries vv' + 1))
      with (S (Z.to_nat (num_retries vv'))) by lia.
    by rewrite Nat.iter_succ.
Qed.

(** X16.  At every test of the loop condition of a run with a validation
    set, the [validated] checkpoint holds a session whose error on the
    validation set is [validation_error], with its learning rate halved
    once for each of the [num_retries] retries since it was accepted. *)
Theorem validated_checkpoint_holds_best cfg (d : Disp) files st0 st vd vl vv :
  setup cfg d files = inr st0 ->
  reachable cfg (val_set cfg d) (total_steps cfg d) st0 st ->
  val_set cfg d = Some (vd, vl) ->
  vvars st = Some vv ->
  0 <= num_retries vv
  /\ exists base,
       fst (evaluate base vd vl) = validation_error vv
       /\ store st !! validated_path cfg
          = Some (Nat.iter (Z.to_nat (num_retries vv))
                    halve_learning_rate base).
Proof.
  intros Hsetup Hreach Hval Hvv.
  assert (Hbest : validated_holds_best cfg (val_set cfg d) st);
    [| by apply (Hbest vd vl vv)].
  clear Hvv vv. induction Hreach as [| st st' Hreach IH Hlt Hb].
  - intros vd1 vl1 vv Hval1 Hvv.
    pose proof Hsetup as (s & Hres & ->)%setup_resumed.
    destruct (initial_validation_fields cfg (val_set cfg d) s)
      as (_ & _ & _ & _ & _ & _ & _ & Hiv).
    rewrite Hval1 in Hiv, Hvv |- *. destruct Hiv as [Hv Hst].
    rewrite Hv in Hvv. injection Hvv as <-.
    cbn [num_retries validation_error]. split; [lia |].
    exists (sess s). split; [reflexivity |].
    rewrite Hst. by rewrite lookup_insert_eq.
  - by apply (validated_holds_best_step cfg (val_set cfg d) st st').
Qed.


End TrainFacts.

Section DecodeFacts.

Context {Mat Hyp Reader Sess : Type}.
Context `{!UttReader Mat Reader}.
Context `{!Decoder Mat Hyp Sess}.

Implicit Types (us : list (string * Mat)) (nbests : gmap string Hyp).

Lemma decode_all_app (model : Sess) us1 us2 nbests :
  decode_all model (us1 ++ us2) nbests
  = decode_all model us2 (decode_all model us1 nbests).
Proof. unfold decode_all. apply foldl_app. Qed.

Lemma decode_all_cons (model : Sess) u us nbests :
  decode_all model (u :: us) nbests
  = decode_all model us (<[fst u := run_decoder model (snd u)]> nbests).
Proof. reflexivity. Qed.

Lemma decode_all_dom (model : Sess) us nbests :
  dom (decode_all model us nbests) = list_to_set (map fst us) ∪ dom nbests.
Proof.
  revert nbests. induction us as [| u us IH]; intros nbests.
  - cbn. set_solver.
  - rewrite decode_all_cons, IH, dom_insert_L. cbn. set_solver.
Qed.

Lemma decode_all_other (model : Sess) us nbests utt_id :
  utt_id ∉ map fst us ->
  decode_all model us nbests !! utt_id = nbests !! utt_id.
Proof.
  revert nbests. induction us as [| u us IH]; intros nbests Hid; [done |].
  cbn in Hid. apply not_elem_of_cons in Hid as [Hne Hid].
  rewrite decode_all_cons, IH by done. by rewrite lookup_insert_ne.
Qed.

Lemma decode_all_origin (model : Sess) us nbests utt_id hyp :
  decode_all model us nbests !! utt_id = Some hyp ->
  nbests !! utt_id = Some hyp
  \/ exists utt_mat, (utt_id, utt_mat) ∈ us /\ hyp = run_decoder model utt_mat.
Proof.
  revert nbests. induction us as [| [i m] us IH]; intros nbests Hl; [by left |].
  rewrite decode_all_cons in Hl. destruct (IH _ Hl) as [Hin | (m' & Hin & ->)].
  - cbn in Hin. destruct (decide (i = utt_id)) as [-> | Hne].
    + rewrite lookup_insert_eq in Hin. injection Hin as <-.
      right. exists m. split; [left | done].
    + rewrite lookup_insert_ne in Hin by done. by left.
  - right. exists m'. split; [by right | done].
Qed.

(** The loop on a reader that yields [us] and then signals the wrap. *)
Lemma decode_loop_yields (model : Sess) us :
  forall (reader : Reader) nbests (calls : list Mat) fuel,
    yields us reader -> (length us < fuel)%nat ->
    decode_loop model fuel reader nbests calls
    = Decoded (decode_all model us nbests) (calls ++ map snd us).
Proof.
  induction us as [| [i m] us IH]; intros reader nbests calls fuel Hy Hfuel.
  - destruct fuel as [| fuel]; [cbn in Hfuel; lia |].
    cbn in *. destruct (get_utt reader) as [[[i m] looped] r'].
    cbn in Hy. subst looped. by rewrite app_nil_r.
  - destruct fuel as [| fuel]; [cbn in Hfuel; lia |].
    cbn in Hy. destruct Hy as [Hfirst Hrest].
    cbn [decode_loop]. destruct (get_utt reader) as [[[i' m'] looped] r'].
    cbn in Hfirst, Hrest. injection Hfirst as -> -> ->.
    rewrite (IH r') by (done || cbn in Hfuel; lia).
    rewrite decode_all_cons. cbn. by rewrite <- app_assoc.
Qed.

(** Claim C5.  For every reader that yields a finite sequence [us] of
    utterances and then returns [looped = True], [decode] terminates and the
    decoder has been called on the matrices of [us] only, in order, not on
    the utterance returned with the flag.  The dictionary returned has
    exactly the utterance ids of [us] as keys; every entry is the decoding
    of an utterance of [us] with that id, and the entry of an id is the
    decoding of the utterance yielded last with it. *)
Theorem C5_decode_until_wrap cfg (model : Sess) us (reader : Reader)
    (files : gmap string Sess) fuel :
  yields us reader ->
  files !! final_path cfg = Some model ->
  (length us < fuel)%nat ->
  exists nbests,
    decode cfg fuel reader files = Decoded nbests (map snd us)
    /\ nbests = decode_all model us ∅
    /\ dom nbests = list_to_set (map fst us)
    /\ (forall utt_id hyp,
          nbests !! utt_id = Some hyp ->
          exists utt_mat,
            (utt_id, utt_mat) ∈ us /\ hyp = run_decoder model utt_mat)
    /\ (forall us1 utt_id utt_mat us2,
          us = us1 ++ (utt_id, utt_mat) :: us2 ->
          utt_id ∉ map fst us2 ->
          nbests !! utt_id = Some (run_decoder model utt_mat)).
Proof.
  intros Hy Hfinal Hfuel. exists (decode_all model us ∅).
  unfold decode. rewrite Hfinal.
  rewrite (decode_loop_yields model us reader ∅ [] fuel Hy Hfuel).
  split; [done |]. split; [done |]. split; [| split].
  - rewrite decode_all_dom. set_solver.
  - intros utt_id hyp Hl.
    destruct (decode_all_origin _ _ _ _ _ Hl) as [Hin | Hin]; [| done].
    by rewrite lookup_empty in Hin.
  - intros us1 utt_id utt_mat us2 -> Hlast.
    rewrite decode_all_app, decode_all_cons, decode_all_other by done.
    apply lookup_insert_eq.
Qed.

(** Claim C10.  If the reader returns [looped = True] on the very first
    call, [decode] returns an empty dictionary and the decoder is never
    called. *)
Theorem C10_decode_wrap_on_first_call cfg (model : Sess) (reader : Reader)
    (files : gmap string Sess) fuel :
  snd (fst (get_utt reader)) = true ->
  files !! final_path cfg = Some model ->
  decode cfg (S fuel) reader files
  = Decoded (∅ : gmap string Hyp) ([] : list Mat).
Proof.
  intros Hlooped Hfinal. unfold decode. rewrite Hfinal.
  by rewrite (decode_loop_yields model [] reader ∅ [] (S fuel) Hlooped)
    by (cbn; lia).
Qed.

Lemma decode_all_size (model : Sess) us nbests :
  NoDup (map fst us) ->
  (forall utt_id, utt_id ∈ map fst us -> nbests !! utt_id = None) ->
  size (decode_all model us nbests) = (length us + size nbests)%nat.
Proof.
  revert nbests. induction us as [| [i m] us IH]; intros nbests Hnd Hfresh;
    [reflexivity |].
  cbn [map fst] in Hnd, Hfresh. apply NoDup_cons in Hnd as [Hi Hnd].
  rewrite decode_all_cons, IH; [| done |].
  - cbn [fst snd length]. rewrite map_size_insert_None; [lia |].
    apply Hfresh. left.
  - intros j Hj. cbn [fst]. rewrite lookup_insert_ne.
    + apply Hfresh. by right.
    + intros ->. done.
Qed.

Lemma decode_all_size_le (model : Sess) us nbests :
  (size (decode_all model us nbests) <= length us + size nbests)%nat.
Proof.
  revert nbests. induction us as [| [i m] us IH]; intros nbests;
    [cbn; lia |].
  rewrite decode_all_cons. etrans; [apply IH |]. cbn [fst snd length].
  destruct (nbests !! i) eqn:Hi.
  - rewrite map_size_insert_Some by eauto. lia.
  - rewrite map_size_insert_None by done. lia.
Qed.

(** X12.  [decode] returns at most one entry per utterance read, and when
    the utterance ids read before the wrap are pairwise distinct it returns
    exactly one entry per utterance, each holding the decoding of that
    utterance. *)
Theorem decode_distinct_ids cfg (model : Sess) us (reader : Reader)
    (files : gmap string Sess) fuel :
  yields us reader ->
  files !! final_path cfg = Some model ->
  (length us < fuel)%nat ->
  exists nbests,
    decode cfg fuel reader files = Decoded nbests (map snd us)
    /\ (size nbests <= length us)%nat
    /\ (NoDup (map fst us) ->
        size nbests = length us
        /\ forall utt_id utt_mat,
             (utt_id, utt_mat) ∈ us ->
             nbests !! utt_id = Some (run_decoder model utt_mat)).
Proof.
  intros Hy Hfinal Hfuel. exists (decode_all model us ∅).
  unfold decode. rewrite Hfinal.
  rewrite (decode_loop_yields model us reader ∅ [] fuel Hy Hfuel).
  split; [done |]. split.
  { pose proof (decode_all_size_le model us ∅) as Hle.
    rewrite map_size_empty in Hle. lia. }
  intros Hnd. split.
  - rewrite decode_all_size; [rewrite map_size_empty; lia | done |].
    intros. apply lookup_empty.
  - intros utt_id utt_mat (us1 & us2 & ->)%list_elem_of_split.
    rewrite decode_all_app, decode_all_cons, decode_all_other.
    + apply lookup_insert_eq.
    + rewrite map_app in Hnd. apply NoDup_app in Hnd as (_ & _ & Hnd).
      cbn [map fst] in Hnd. by apply NoDup_cons in Hnd as [Hi _].
Qed.


End DecodeFacts.

Section TrainThenDecode.

Context {Mat Lab Loss Err Lr Disp Sess Hyp Reader : Type}.
Context `{!Dispenser Mat Lab Disp}.
Context `{!Trainer Mat Lab Loss Err Lr Sess}.
Context `{!ErrOrder Err}.
Context `{!UttReader Mat Reader}.
Context `{!Decoder Mat Hyp Sess}.

(** X13.  [decode] after a [train] that ended normally never fails on the
    restore: it decodes with the session the training loop ended with,
    whatever checkpoints were there before. *)
Theorem decode_after_train cfg (d : Disp) (files : gmap string Sess) fuel
    (st : TrainState Loss Err Disp Sess) us (reader : Reader) fuel' :
  train cfg fuel d files = Done st ->
  yields us reader ->
  (length us < fuel')%nat ->
  decode cfg fuel' reader (store st)
  = Decoded (decode_all (sess st) us (∅ : gmap string Hyp)) (map snd us).
Proof.
  intros (st0 & st' & _ & _ & ->)%train_done Hy Hfuel.
  unfold decode, teardown. cbn [store sess pickle_dump save_model].
  rewrite lookup_insert_eq.
  by rewrite (decode_loop_yields (sess st') us reader ∅ [] fuel' Hy Hfuel).
Qed.

End TrainThenDecode.


(** * The definitions on concrete runs *)

Import Demo.

Lemma demo_setup cfg files :
  (if setup cfg 0 files is inr _ then true else false) = true ->
  setup cfg 0 files = inr (start cfg files).
Proof. unfold start. by destruct (setup cfg 0 files) as [[e st] | st]. Qed.

(** The first two iterations of the run of [cfg_adapt] accept the
    validation; the third one rolls back. *)
Lemma demo_reachable n :
  (n <= 2)%nat ->
  reachable cfg_adapt (val_set cfg_adapt 0) (total_steps cfg_adapt 0)
    (start cfg_adapt ∅) (after cfg_adapt n (start cfg_adapt ∅)).
Proof.
  intros Hn. destruct n as [| [| [| n]]]; [| | | lia].
  - apply reach_start.
  - eapply reach_next;
      [apply reach_start | by vm_compute | left; vm_compute; reflexivity].
  - eapply reach_next with (st := after cfg_adapt 1 (start cfg_adapt ∅)).
    + eapply reach_next;
        [apply reach_start | by vm_compute | left; vm_compute; reflexivity].
    + by vm_compute.
    + left; vm_compute; reflexivity.
Qed.

Lemma demo_return_get (c : Z) : return_batch (snd (get_batch c)) = c.
Proof. cbn. lia. Qed.

Lemma demo_err_le_not_gt (a b : Z) : err_le a b = true -> err_gt a b = false.
Proof. cbn. lia. Qed.

(** Claim C1 as stated fails: with rollback disabled, the iteration of the
    run of [cfg_plain] that validates at step 1 logs the error 1, and leaves
    [validation_error = 2] and [validation_step = 0]; it saves no
    [validated] checkpoint, and the one in place still holds the session of
    step 0. *)
Lemma C1_counterexample :
  let st := start cfg_plain ∅ in
  exists st' vv,
    valid_adapt cfg_plain <> "True"
    /\ validation_due cfg_plain (val_set cfg_plain 0) st [0] [0]
    /\ body cfg_plain (val_set cfg_plain 0) st = Next st'
    /\ step st' = 1
    /\ val_error_list st' = val_error_list st ++ [(1, 1)]
    /\ vvars st' = Some vv
    /\ validation_error vv = 2
    /\ validation_step vv = 0
    /\ trace st' = trace st ++ [GetBatch; Update; SetStep 1; Evaluate]
    /\ sess st' = (1, 16)
    /\ store st' !! validated_path cfg_plain = Some (0, 16).
Proof.
  eexists _, _. split; [done |]. split; [by vm_compute |].
  split; [vm_compute; reflexivity |]. by vm_compute.
Qed.

Lemma C1_witness :
  let st := start cfg_plain ∅ in
  valid_adapt cfg_plain <> "True"
  /\ validation_due cfg_plain (val_set cfg_plain 0) st [0] [0]
  /\ vvars (flow_state (body cfg_plain (val_set cfg_plain 0) st)) = vvars st.
Proof.
  assert (H1 : valid_adapt cfg_plain <> "True") by done.
  assert (H2 : validation_due cfg_plain (val_set cfg_plain 0)
                 (start cfg_plain ∅) [0] [0]) by (by vm_compute).
  split; [exact H1 |]. split; [exact H2 |].
  apply (C1_validation_without_adapt_only_logs cfg_plain
           (val_set cfg_plain 0) (start cfg_plain ∅) [0] [0] H1 H2).
Defined.

Lemma C2_witness :
  let st := after cfg_adapt 2 (start cfg_adapt ∅) in
  exists snap st',
    store st !! validated_path cfg_adapt = Some snap
    /\ (body cfg_adapt (val_set cfg_adapt 0) st = Break st'
        \/ body cfg_adapt (val_set cfg_adapt 0) st = Continue st')
    /\ trace st'
       = trace st ++ [GetBatch; Update; SetStep 3; Evaluate]
         ++ [ReturnBatch]
         ++ [RestoreTrainer (validated_path cfg_adapt); HalveLearningRate;
             SaveTrainer (validated_path cfg_adapt); SetStep 2].
Proof.
  destruct (C2_rollback_sequence cfg_adapt 0 ∅ (start cfg_adapt ∅)
              (after cfg_adapt 2 (start cfg_adapt ∅)) [0] [0]
              {| validation_error := 0; validation_step := 2;
                 num_retries := 0 |})
    as (snap & st' & Hsnap & Hb & Htrace & _).
  - apply demo_setup. by vm_compute.
  - by apply demo_reachable.
  - reflexivity.
  - by vm_compute.
  - by vm_compute.
  - by vm_compute.
  - exists snap, st'. split; [exact Hsnap |]. split; [exact Hb |]. exact Htrace.
Defined.

(** Claim C3 as stated fails: with [valid_retries = -1] the loop never ends
    on a rollback, and after six iterations [num_retries] is 4. *)
Lemma C3_counterexample :
  exists st vv,
    train cfg_neg_retries 6 0 ∅ = OutOfFuel st
    /\ vvars st = Some vv
    /\ num_retries vv = 4
    /\ valid_retries cfg_neg_retries = -1
    /\ ~ num_retries vv <= valid_retries cfg_neg_retries.
Proof.
  eexists _, _. split; [vm_compute; reflexivity |].
  split; [vm_compute; reflexivity |]. by vm_compute.
Qed.

Lemma C3_witness :
  0 <= valid_retries cfg_adapt
  /\ forall fuel vv,
       vvars (result_state (train cfg_adapt fuel 0 ∅)) = Some vv ->
       0 <= num_retries vv <= valid_retries cfg_adapt.
Proof.
  assert (H1 : 0 <= valid_retries cfg_adapt) by (by vm_compute).
  assert (H2 : setup cfg_adapt 0 ∅ = inr (start cfg_adapt ∅))
    by (apply demo_setup; by vm_compute).
  split; [exact H1 |].
  apply (C3_retries_bounded cfg_adapt 0 ∅ (start cfg_adapt ∅) H1 H2).
Defined.

Lemma C4_witness :
  let st := start cfg_adapt ∅ in
  err_le (current_error [0] [0] st) 2 = true
  /\ validation cfg_adapt (val_set cfg_adapt 0) (fetch_update st)
     = Next (accepted cfg_adapt (current_error [0] [0] st)
               (logged [0] [0] (fetch_update st))).
Proof.
  split; [by vm_compute |].
  apply (C4_accept_on_improvement_or_tie demo_err_le_not_gt cfg_adapt
           (val_set cfg_adapt 0) (start cfg_adapt ∅) [0] [0]
           {| validation_error := 2; validation_step := 0;
              num_retries := 0 |}).
  - reflexivity.
  - by vm_compute.
  - by vm_compute.
  - by vm_compute.
Defined.

Lemma C5_witness :
  exists nbests,
    decode cfg_adapt 4 0%nat files_final = Decoded nbests [10; 20; 30]
    /\ dom nbests = {["u1"; "u2"; "u3"]}.
Proof.
  destruct (C5_decode_until_wrap cfg_adapt (4, 16) utts 0%nat files_final 4)
    as (nbests & Hdec & _ & Hdom & _).
  - by vm_compute.
  - by vm_compute.
  - cbn. lia.
  - exists nbests. split; [exact Hdec |]. rewrite Hdom. clear Hdec Hdom.
    cbn. set_solver.
Defined.

(** Claim C6 as stated fails: the run of [cfg_noval] ends at step 4 with
    [check_freq = 2]; 0 is a multiple of 2 and at most 4, and no checkpoint
    [training/step0] was saved. *)
Lemma C6_counterexample :
  exists st,
    train cfg_noval 4 0 ∅ = Done st
    /\ step st = 4
    /\ 0 mod check_freq cfg_noval = 0
    /\ 0 <= step st
    /\ (SaveTrainer (training_path cfg_noval 0) ∉ trace st)
    /\ store st !! training_path cfg_noval 0 = None.
Proof.
  eexists. split; [vm_compute; reflexivity |].
  split; [by vm_compute |]. split; [by vm_compute |].
  split; [by vm_compute |]. split; [| by vm_compute].
  apply (bool_decide_unpack _). by vm_compute.
Qed.

Lemma C6_witness :
  exists st,
    train cfg_adapt 20 0 ∅ = Done st
    /\ step st = 2
    /\ SaveTrainer (training_path cfg_adapt 2) ∈ trace st.
Proof.
  assert (Hr : starting_step cfg_adapt < 2
               <= step (result_state (train cfg_adapt 20 0 ∅)))
    by (vm_compute; split; [reflexivity | discriminate]).
  assert (Hm : 2 mod check_freq cfg_adapt = 0) by (vm_compute; reflexivity).
  assert (Hs : step (result_state (train cfg_adapt 20 0 ∅)) = 2)
    by (vm_compute; reflexivity).
  assert (H : train cfg_adapt 20 0 ∅
              = Done (result_state (train cfg_adapt 20 0 ∅)))
    by (vm_compute; reflexivity).
  exists (result_state (train cfg_adapt 20 0 ∅)).
  exact (conj H (conj Hs
           (proj1 (proj1 (C6_checkpoint_at_every_multiple cfg_adapt 20 0 ∅ _ H)
                     2 Hr Hm)))).
Defined.

Lemma C7_witness :
  let st := after cfg_adapt 2 (start cfg_adapt ∅) in
  exists st',
    (body cfg_adapt (val_set cfg_adapt 0) st = Break st'
     \/ body cfg_adapt (val_set cfg_adapt 0) st = Continue st')
    /\ forall st_v,
         reachable cfg_adapt (val_set cfg_adapt 0) (total_steps cfg_adapt 0)
           (start cfg_adapt ∅) st_v ->
         step st_v = 2 -> disp st' = disp st_v.
Proof.
  destruct (C7_rollback_restores_cursor demo_return_get cfg_adapt 0 ∅
              (start cfg_adapt ∅) (after cfg_adapt 2 (start cfg_adapt ∅))
              [0] [0]
              {| validation_error := 0; validation_step := 2;
                 num_retries := 0 |})
    as (st' & Hb & _ & _ & Hcur & _).
  - apply demo_setup. by vm_compute.
  - by apply demo_reachable.
  - by vm_compute.
  - reflexivity.
  - by vm_compute.
  - by vm_compute.
  - by vm_compute.
  - exists st'. split; [exact Hb | exact Hcur].
Defined.

(** Claim C8 as stated fails: resumed at step 6 with [num_steps = 4], the
    run ends without an iteration and [step] is 6 throughout. *)
Lemma C8_counterexample :
  exists st,
    train cfg_resumed 4 0 files_resumed = Done st
    /\ total_steps cfg_resumed 0 = 4
    /\ step st = 6
    /\ step_values (trace st) = [6]
    /\ ~ (0 <= step st <= total_steps cfg_resumed 0).
Proof.
  eexists. split; [vm_compute; reflexivity |].
  split; [by vm_compute |]. split; [by vm_compute |].
  split; [by vm_compute |]. vm_compute. intros [_ H]. by apply H.
Qed.

Lemma C8_witness :
  0 <= starting_step cfg_adapt <= total_steps cfg_adapt 0
  /\ forall fuel,
       let st := result_state (train cfg_adapt fuel 0 ∅) in
       0 <= step st <= total_steps cfg_adapt 0
       /\ Forall (fun n => 0 <= n <= total_steps cfg_adapt 0)
            (step_values (trace st)).
Proof.
  assert (H1 : 0 <= starting_step cfg_adapt <= total_steps cfg_adapt 0)
    by (by vm_compute).
  assert (H2 : setup cfg_adapt 0 ∅ = inr (start cfg_adapt ∅))
    by (apply demo_setup; by vm_compute).
  split; [exact H1 |].
  apply (C8_step_within_bounds cfg_adapt 0 ∅ (start cfg_adapt ∅) H1 H2).
Defined.

(** Claim C9 as stated fails: without validation, resumed at step 6 with
    [num_steps = 4], the run makes no update and ends with [step = 6]. *)
Lemma C9_counterexample :
  exists st,
    valid_batches cfg_resumed <= 0
    /\ train cfg_resumed 4 0 files_resumed = Done st
    /\ total_steps cfg_resumed 0 = 4
    /\ step st = 6
    /\ step st <> total_steps cfg_resumed 0
    /\ updates (trace st) = O
    /\ total_steps cfg_resumed 0 - starting_step cfg_resumed = -2.
Proof.
  eexists. split; [by vm_compute |]. split; [vm_compute; reflexivity |].
  by vm_compute.
Qed.

Lemma C9_witness :
  exists st losses,
    train cfg_noval 4 0 ∅ = Done st
    /\ step st = 4
    /\ updates (trace st) = 4%nat
    /\ plot st = Some (losses, [], []).
Proof.
  destruct (C9_run_without_validation cfg_noval 0 ∅ 4)
    as (st & losses & Hdone & Hstep & Hupd & _ & _ & _ & _ & _ & _ & Hplot & _).
  - by vm_compute.
  - by vm_compute.
  - by vm_compute.
  - by vm_compute.
  - by vm_compute.
  - by vm_compute.
  - exists st, losses. split; [exact Hdone |]. split; [exact Hstep |].
    split; [exact Hupd | exact Hplot].
Defined.

Lemma C10_witness :
  snd (fst (get_utt 3%nat)) = true
  /\ decode cfg_adapt 1 3%nat files_final
     = Decoded (∅ : gmap string (list string * list Z)) ([] : list Z).
Proof.
  split; [reflexivity |].
  apply (C10_decode_wrap_on_first_call cfg_adapt (4, 16) 3%nat files_final 0).
  - reflexivity.
  - by vm_compute.
Defined.

(** ** Further runs *)

Lemma X1_witness :
  0 <= valid_retries cfg_adapt
  /\ (iteration_bound cfg_adapt (total_steps cfg_adapt 0%Z) <= 49)%nat
  /\ forall st, train cfg_adapt 49 0 ∅ <> OutOfFuel st.
Proof.
  assert (H1 : 0 <= valid_retries cfg_adapt) by (vm_compute; discriminate).
  assert (H2 : (iteration_bound cfg_adapt (total_steps cfg_adapt 0%Z) <= 49)%nat)
    by (vm_compute; lia).
  exact (conj H1 (conj H2 (train_terminates cfg_adapt 0 ∅ 49 H1 H2))).
Defined.



Lemma X4_witness :
  exists pre mid,
    trace (result_state (train cfg_adapt 49 0 ∅))
    = pre ++ mid ++ [SaveModel (final_path cfg_adapt);
                     PickleDump (plot_path cfg_adapt)]
    /\ Forall (setup_event cfg_adapt) pre
    /\ Forall (loop_event cfg_adapt) mid.
Proof.
  destruct (train_trace_phases cfg_adapt 0 ∅ 49)
    as (pre & mid & post & Ht & Hpre & Hmid & Hpost).
  exists pre, mid. split; [| by split].
  rewrite Ht. do 2 f_equal. rewrite Hpost. clear.
  by vm_compute.
Defined.


Lemma X6_witness :
  exists st,
    train cfg_adapt 49 0 ∅ = Done st
    /\ store st !! final_path cfg_adapt = Some (sess st)
    /\ plot st = Some (loss_lst st, val_loss_lst st, val_error_list st).
Proof.
  pose proof (train_outputs cfg_adapt 0 ∅ 49) as Hout.
  assert (H : train cfg_adapt 49 0 ∅
              = Done (result_state (train cfg_adapt 49 0 ∅)))
    by (vm_compute; reflexivity).
  rewrite H in Hout.
  exists (result_state (train cfg_adapt 49 0 ∅)).
  exact (conj H Hout).
Defined.

Lemma X7_witness :
  exists st vv snap,
    train cfg_adapt 49 0 ∅ = Done st
    /\ step st < total_steps cfg_adapt 0
    /\ vvars st = Some vv
    /\ num_retries vv = valid_retries cfg_adapt
    /\ store st !! final_path cfg_adapt = Some (halve_learning_rate snap)
    /\ store st !! validated_path cfg_adapt = Some (halve_learning_rate snap).
Proof.
  assert (Hlt : step (result_state (train cfg_adapt 49 0 ∅))
                < total_steps cfg_adapt 0) by (vm_compute; reflexivity).
  assert (H : train cfg_adapt 49 0 ∅
              = Done (result_state (train cfg_adapt 49 0 ∅)))
    by (vm_compute; reflexivity).
  destruct (early_stop_keeps_validated_model cfg_adapt 0 ∅ 49 _ H Hlt)
    as (vv & snap & Hvv & Hn & _ & _ & Hfin & Hval).
  exists (result_state (train cfg_adapt 49 0 ∅)), vv, snap.
  exact (conj H (conj Hlt (conj Hvv (conj Hn (conj Hfin Hval))))).
Defined.

Lemma X8_witness :
  training_path cfg_adapt 2 <> training_path cfg_adapt 4.
Proof.
  intros E. apply (proj1 (checkpoint_paths_distinct cfg_adapt)) in E.
  discriminate E.
Defined.

Lemma X9_witness :
  exists st,
    train cfg_plain 4 0 ∅ = Done st
    /\ step st = total_steps cfg_plain 0
    /\ updates (trace st) = 4%nat
    /\ vvars st = vvars (start cfg_plain ∅).
Proof.
  destruct (run_without_adapt cfg_plain 0 ∅ (start cfg_plain ∅) 4)
    as (st & Hdone & Hstep & Hupd & Hvv & _).
  - discriminate.
  - vm_compute. discriminate.
  - vm_compute. discriminate.
  - vm_compute. discriminate.
  - apply demo_setup. vm_compute. reflexivity.
  - vm_compute. lia.
  - exists st. exact (conj Hdone (conj Hstep (conj Hupd Hvv))).
Defined.

Lemma X10_witness :
  let st0 := start cfg_adapt ∅ in
  let st := after cfg_adapt 2 st0 in
  Z.of_nat (count is_get_batch (trace st))
  - Z.of_nat (count is_return_batch (trace st))
  = Z.of_nat (count is_get_batch (trace st0))
    - Z.of_nat (count is_return_batch (trace st0))
    + (step st - starting_step cfg_adapt).
Proof.
  apply (batch_balance cfg_adapt 0 ∅).
  - apply demo_setup. vm_compute. reflexivity.
  - apply demo_reachable. lia.
Defined.

Lemma X11_witness :
  let st := result_state (train cfg_adapt 49 0 ∅) in
  length (loss_lst st) = updates (trace st)
  /\ length (val_error_list st) = count is_evaluate (trace st).
Proof.
  destruct (logs_follow_the_trace cfg_adapt 0 ∅ (start cfg_adapt ∅) 49)
    as (Hl & He & _).
  - apply demo_setup. vm_compute. reflexivity.
  - vm_compute. discriminate.
  - exact (conj Hl He).
Defined.

Lemma X12_witness :
  exists nbests,
    decode cfg_adapt 4 0%nat files_final = Decoded nbests [10; 20; 30]
    /\ size nbests = 3%nat.
Proof.
  destruct (decode_distinct_ids cfg_adapt (4, 16) utts 0%nat files_final 4)
    as (nbests & Hdec & _ & Hnd).
  - vm_compute. repeat split.
  - vm_compute. reflexivity.
  - cbn. lia.
  - exists nbests. split; [exact Hdec |]. apply Hnd. clear.
    apply (bool_decide_unpack _). by vm_compute.
Defined.

Lemma X13_witness :
  exists st,
    train cfg_adapt 49 0 ∅ = Done st
    /\ decode cfg_adapt 4 0%nat (store st)
       = Decoded (decode_all (sess st) utts ∅) [10; 20; 30].
Proof.
  assert (Hy : yields utts 0%nat) by (vm_compute; repeat split).
  assert (H : train cfg_adapt 49 0 ∅
              = Done (result_state (train cfg_adapt 49 0 ∅)))
    by (vm_compute; reflexivity).
  exists (result_state (train cfg_adapt 49 0 ∅)).
  split; [exact H |].
  apply (decode_after_train cfg_adapt 0 ∅ 49 _ utts 0%nat 4 H Hy).
  cbn. lia.
Defined.

Lemma demo_skip_is_get (c : Z) : skip_batch c = snd (get_batch c).
Proof. reflexivity. Qed.

Lemma X14_witness :
  exists st_full st_resumed,
    train cfg_noval 4 0 ∅ = Done st_full
    /\ train (with_starting_step cfg_noval 2) 4 0 (store st_full)
       = Done st_resumed
    /\ step st_resumed = step st_full
    /\ sess st_resumed = sess st_full.
Proof.
  destruct (resume_matches_uninterrupted demo_skip_is_get cfg_noval 0 ∅ 2 4)
    as (st_full & st_resumed & HA & HB & Hstep & _ & Hsess & _).
  - vm_compute. discriminate.
  - reflexivity.
  - vm_compute. discriminate.
  - vm_compute. discriminate.
  - vm_compute. split; [reflexivity | discriminate].
  - vm_compute. reflexivity.
  - vm_compute. lia.
  - exists st_full, st_resumed.
    exact (conj HA (conj HB (conj Hstep Hsess))).
Defined.

Lemma X15_witness :
  exists st,
    valid_retries cfg_neg_sparse < 0
    /\ train cfg_neg_sparse 4 0 ∅ = Done st
    /\ total_steps cfg_neg_sparse 0 <= step st.
Proof.
  assert (H1 : valid_retries cfg_neg_sparse < 0) by (vm_compute; reflexivity).
  assert (H : train cfg_neg_sparse 4 0 ∅
              = Done (result_state (train cfg_neg_sparse 4 0 ∅)))
    by (vm_compute; reflexivity).
  exists (result_state (train cfg_neg_sparse 4 0 ∅)).
  exact (conj H1 (conj H
           (negative_retries_never_stop_early cfg_neg_sparse 0 ∅ 4 _ H1 H))).
Defined.

Lemma X16_witness :
  let st := after cfg_adapt 3 (start cfg_adapt ∅) in
  exists base,
    fst (evaluate base [0] [0]) = 0
    /\ store st !! validated_path cfg_adapt = Some (halve_learning_rate base).
Proof.
  destruct (validated_checkpoint_holds_best cfg_adapt 0 ∅ (start cfg_adapt ∅)
              (after cfg_adapt 3 (start cfg_adapt ∅)) [0] [0]
              {| validation_error := 0; validation_step := 2;
                 num_retries := 1 |})
    as (_ & base & He & Hs).
  - apply demo_setup. vm_compute. reflexivity.
  - eapply reach_next with (st := after cfg_adapt 2 (start cfg_adapt ∅)).
    + apply demo_reachable. lia.
    + vm_compute. reflexivity.
    + right. vm_compute. reflexivity.
  - vm_compute. reflexivity.
  - vm_compute. reflexivity.
  - exists base. exact (conj He Hs).
Defined.
